(** * The annotation canvas of vecrossFrontend

    A shallow embedding of [src/components/Canvas.jsx]: the React state of the
    [Canvas] component, its event handlers, and the part of the browser the
    handlers talk to (the timer table, the requests sent to the persistence
    service).

    Conventions of the embedding.
    - A JavaScript number is a double, given by its exact rational value
      ([Q]); NaN and the infinities are outside the model, and an operation
      that would produce one has no result.  Comparisons, [Math.abs],
      [Math.max] and [Math.floor] are exact on doubles.  The difference that
      [handleMouseMove] compares with the threshold and the product that
      [randomColor] cuts to an integer are rounded as the doubles round them
      ([roundDouble]); the sums and products that are only stored are kept
      exact, so a stored coordinate can differ from the one of the program by
      one rounding.
    - A value that came out of [JSON.parse] is a [value] tree.  [undefined] is
      not a [value]: it only shows up as the result of reading a property
      ([jsval]).
    - A handler that reads the stored rectangles has type [option _]: [None]
      means that JavaScript throws a TypeError there, or that the result
      depends on coercions or on object identity that are not modelled.
    - A render that throws unmounts the component: the event that leads to it
      has no successor state ([step] gives [None]).  So [None] from [step]
      covers a control that is disabled or absent, a component that does not
      survive the event, and an event whose result is outside the model; the
      states of [reachable] are states the program reaches, not all of them.
    - [JSON.parse] and [JSON.stringify] belong to the platform: they are
      parameters of the file handlers, and a file chosen in the interface is
      given by what [JSON.parse] makes of its text ([document]). *)

From Stdlib Require Import ZArith QArith Qabs Qminmax Qround.
From Stdlib Require Import List String Ascii Bool Lia.
From Stdlib Require DecimalString HexadecimalString DecimalPos DecimalN.
Import ListNotations.

Set Warnings "-register-all".

Local Open Scope string_scope.
Local Open Scope list_scope.
Local Open Scope Q_scope.

(** ** JavaScript values *)

Inductive value : Type :=
| JNull
| JBool (b : bool)
| JNum (q : Q)
| JStr (s : string)
| JArr (items : list value)
| JObj (props : list (string * value)).

(** The result of an expression: a value or [undefined]. *)
Inductive jsval : Type :=
| Undefined
| Def (v : value).

Definition null : jsval := Def JNull.

(** Conversion to boolean, as [if (e)] and [!e] do it. *)
Definition truthy (a : jsval) : bool :=
  match a with
  | Undefined => false
  | Def JNull => false
  | Def (JBool b) => b
  | Def (JNum q) => negb (Qeq_bool q 0)
  | Def (JStr s) => negb (s =? "")%string
  | Def (JArr _) | Def (JObj _) => true
  end.

Fixpoint lookup (k : string) (props : list (string * value)) : jsval :=
  match props with
  | [] => Undefined
  | (k', v) :: rest => if (k' =? k)%string then Def v else lookup k rest
  end.

(** [o.k] for one of the keys the component reads ([id], [x], [y], [width],
    [height], [color]): none of them is a property of a primitive or of an
    array, and reading a property of [null] throws. *)
Definition getProp (k : string) (o : value) : option jsval :=
  match o with
  | JNull => None
  | JObj props => Some (lookup k props)
  | JBool _ | JNum _ | JStr _ | JArr _ => Some Undefined
  end.

(** [a === b].  Two objects or arrays are equal when they are the same
    object, which a tree cannot tell: no result. *)
Definition strictEq (a b : jsval) : option bool :=
  match a, b with
  | Undefined, Undefined => Some true
  | Undefined, Def _ | Def _, Undefined => Some false
  | Def u, Def v =>
      match u, v with
      | JNull, JNull => Some true
      | JBool p, JBool q => Some (Bool.eqb p q)
      | JNum p, JNum q => Some (Qeq_bool p q)
      | JStr p, JStr q => Some (p =? q)%string
      | (JArr _ | JObj _), (JArr _ | JObj _) => None
      | _, _ => Some false
      end
  end.

(** The numeric value of an operand of [*], for a number, [null] and a
    boolean.  [undefined] gives NaN, which is outside the model; a string is
    parsed and an object or an array is converted through its methods, and
    neither conversion is modelled: no result. *)
Definition toNumber (a : jsval) : option Q :=
  match a with
  | Def (JNum q) => Some q
  | Def JNull => Some 0
  | Def (JBool b) => Some (if b then 1 else 0)
  | Undefined | Def (JStr _) | Def (JArr _) | Def (JObj _) => None
  end.

(** The own properties [{...o}] copies.  A string or an array would
    contribute its indices: no result. *)
Definition spread (o : value) : option (list (string * value)) :=
  match o with
  | JObj props => Some props
  | JNull | JBool _ | JNum _ => Some []
  | JStr _ | JArr _ => None
  end.

(** [k: v] in an object literal, after a spread: an existing key keeps its
    place, a new one goes last. *)
Fixpoint setProp (k : string) (v : value) (props : list (string * value))
  : list (string * value) :=
  match props with
  | [] => [(k, v)]
  | (k', v') :: rest =>
      if (k' =? k)%string then (k, v) :: rest else (k', v') :: setProp k v rest
  end.

Definition Qltb (a b : Q) : bool := negb (Qle_bool b a).

(** ** Doubles *)

(** The integer nearest to [p / r], the even one of two that are equally
    near; [r] is positive. *)
Definition roundHalfEven (p r : Z) : Z :=
  let q := (p / r)%Z in
  match (2 * (p mod r) ?= r)%Z with
  | Lt => q
  | Gt => (q + 1)%Z
  | Eq => if Z.even q then q else (q + 1)%Z
  end.

(** The double nearest to a rational, ties to even: what an arithmetic
    operation on doubles returns for its exact result.  A double is
    [m * 2 ^ e] with [m] below [2 ^ 53] and [e] no less than [-1074]; [k] is
    the binary exponent of the rational.  Beyond the largest double the
    operation gives an infinity, which is outside the model; [roundDouble]
    still rounds to 53 bits there. *)
Definition roundDouble (q : Q) : Q :=
  let n := Z.abs (Qnum q) in
  let d := Zpos (Qden q) in
  if (n =? 0)%Z then 0
  else
    let k0 := (Z.log2 n - Z.log2 d)%Z in
    let k := if (if 0 <=? k0 then d * 2 ^ k0 <=? n else d <=? n * 2 ^ (- k0))%Z
             then k0 else (k0 - 1)%Z in
    let e := Z.max (k - 52) (-1074) in
    let s := Z.sgn (Qnum q) in
    if (0 <=? e)%Z
    then inject_Z (s * roundHalfEven n (d * 2 ^ e) * 2 ^ e)
    else Qred (s * roundHalfEven (n * 2 ^ (- e)) d # Z.to_pos (2 ^ (- e))).

(** ** The option monad of the handlers *)

Definition bind {A B : Type} (m : option A) (f : A -> option B) : option B :=
  match m with
  | Some a => f a
  | None => None
  end.

Notation "x <- m ;; k" := (bind m (fun x => k))
  (at level 61, m at next level, right associativity).

Fixpoint mapM {A B : Type} (f : A -> option B) (l : list A) : option (list B) :=
  match l with
  | [] => Some []
  | a :: rest => b <- f a ;; bs <- mapM f rest ;; Some (b :: bs)
  end.

Fixpoint filterM {A : Type} (f : A -> option bool) (l : list A)
  : option (list A) :=
  match l with
  | [] => Some []
  | a :: rest =>
      keep <- f a ;; kept <- filterM f rest ;;
      Some (if keep then a :: kept else kept)
  end.

(** ** Rectangles *)

Record point : Type := { px : Q; py : Q }.

(** The object literal of [handleMouseDown]; the provisional rectangle keeps
    this shape until pointer-up. *)
Module Rect.
Record t : Type := make
  { id : string; x : Q; y : Q; width : Q; height : Q; color : string }.
End Rect.

Definition objOfRect (r : Rect.t) : value :=
  JObj [ ("id", JStr (Rect.id r));
         ("x", JNum (Rect.x r));
         ("y", JNum (Rect.y r));
         ("width", JNum (Rect.width r));
         ("height", JNum (Rect.height r));
         ("color", JStr (Rect.color r)) ].

(** [n.toString(16)] and the decimal digits of a template literal, for the
    non-negative integers the component formats. *)
Definition toString16 (n : Z) : string :=
  HexadecimalString.NilZero.string_of_uint (N.to_hex_uint (Z.to_N n)).

Definition toString10 (n : Z) : string :=
  DecimalString.NilZero.string_of_uint (N.to_uint (Z.to_N n)).

(** ['#' + Math.floor(Math.random()*16777215).toString(16)], for the number
    [rnd] that [Math.random()] returned. *)
Definition randomColor (rnd : Q) : string :=
  ("#" ++ toString16 (Qfloor (roundDouble (rnd * 16777215))))%string.

(** A hex RGB colour: [#] and exactly six hexadecimal digits. *)
Definition isHexDigit (c : ascii) : bool :=
  let n := nat_of_ascii c in
  ((48 <=? n) && (n <=? 57) || (97 <=? n) && (n <=? 102)
   || (65 <=? n) && (n <=? 70))%nat.

Definition isHexColor (s : string) : bool :=
  match s with
  | String "#" digits =>
      (String.length digits =? 6)%nat
      && forallb isHexDigit (list_ascii_of_string digits)
  | _ => false
  end.

(** [`rect-${Date.now()}`]. *)
Definition freshId (now : Z) : string := ("rect-" ++ toString10 now)%string.

(** ** The state of the component *)

Record Canvas : Type := mkCanvas
  { rectangles : list value;
    (** how many arrays [setRectangles] has been given: the identity of the
        current array, which is what the dependency list of an effect
        compares *)
    generation : nat;
    selectedId : jsval;
    isDrawing : bool;
    startPoint : option point;
    currentRect : option Rect.t;
    loading : bool;
    error : string;
    annotationId : option string;
    autoSave : bool }.

Definition initial : Canvas :=
  {| rectangles := []; generation := 0; selectedId := null;
     isDrawing := false; startPoint := None; currentRect := None;
     loading := true; error := ""; annotationId := None; autoSave := false |}.

Definition setRectangles (l : list value) (st : Canvas) : Canvas :=
  {| rectangles := l; generation := S (generation st);
     selectedId := selectedId st; isDrawing := isDrawing st;
     startPoint := startPoint st; currentRect := currentRect st;
     loading := loading st; error := error st;
     annotationId := annotationId st; autoSave := autoSave st |}.

Definition setSelectedId (a : jsval) (st : Canvas) : Canvas :=
  {| rectangles := rectangles st; generation := generation st;
     selectedId := a; isDrawing := isDrawing st;
     startPoint := startPoint st; currentRect := currentRect st;
     loading := loading st; error := error st;
     annotationId := annotationId st; autoSave := autoSave st |}.

Definition setIsDrawing (b : bool) (st : Canvas) : Canvas :=
  {| rectangles := rectangles st; generation := generation st;
     selectedId := selectedId st; isDrawing := b;
     startPoint := startPoint st; currentRect := currentRect st;
     loading := loading st; error := error st;
     annotationId := annotationId st; autoSave := autoSave st |}.

Definition setStartPoint (p : option point) (st : Canvas) : Canvas :=
  {| rectangles := rectangles st; generation := generation st;
     selectedId := selectedId st; isDrawing := isDrawing st;
     startPoint := p; currentRect := currentRect st;
     loading := loading st; error := error st;
     annotationId := annotationId st; autoSave := autoSave st |}.

Definition setCurrentRect (r : option Rect.t) (st : Canvas) : Canvas :=
  {| rectangles := rectangles st; generation := generation st;
     selectedId := selectedId st; isDrawing := isDrawing st;
     startPoint := startPoint st; currentRect := r;
     loading := loading st; error := error st;
     annotationId := annotationId st; autoSave := autoSave st |}.

Definition setLoading (b : bool) (st : Canvas) : Canvas :=
  {| rectangles := rectangles st; generation := generation st;
     selectedId := selectedId st; isDrawing := isDrawing st;
     startPoint := startPoint st; currentRect := currentRect st;
     loading := b; error := error st;
     annotationId := annotationId st; autoSave := autoSave st |}.

Definition setError (msg : string) (st : Canvas) : Canvas :=
  {| rectangles := rectangles st; generation := generation st;
     selectedId := selectedId st; isDrawing := isDrawing st;
     startPoint := startPoint st; currentRect := currentRect st;
     loading := loading st; error := msg;
     annotationId := annotationId st; autoSave := autoSave st |}.

Definition setAnnotationId (a : option string) (st : Canvas) : Canvas :=
  {| rectangles := rectangles st; generation := generation st;
     selectedId := selectedId st; isDrawing := isDrawing st;
     startPoint := startPoint st; currentRect := currentRect st;
     loading := loading st; error := error st;
     annotationId := a; autoSave := autoSave st |}.

Definition setAutoSave (b : bool) (st : Canvas) : Canvas :=
  {| rectangles := rectangles st; generation := generation st;
     selectedId := selectedId st; isDrawing := isDrawing st;
     startPoint := startPoint st; currentRect := currentRect st;
     loading := loading st; error := error st;
     annotationId := annotationId st; autoSave := b |}.

(** ** Drawing *)

(** [onStage] is [e.target === stageRef.current], [pos] the pointer position,
    [now] the value of [Date.now()] and [rnd] that of [Math.random()]. *)
Definition handleMouseDown (onStage : bool) (pos : point) (now : Z) (rnd : Q)
    (st : Canvas) : Canvas :=
  if negb (isDrawing st) || negb onStage then st
  else
    let newRect :=
      {| Rect.id := freshId now;
         Rect.x := px pos;
         Rect.y := py pos;
         Rect.width := 0;
         Rect.height := 0;
         Rect.color := randomColor rnd |} in
    setCurrentRect (Some newRect) (setStartPoint (Some pos) st).

Definition handleMouseMove (pos : point) (st : Canvas) : Canvas :=
  if negb (isDrawing st) then st
  else
    match startPoint st, currentRect st with
    | Some start, Some cur =>
        let newRect :=
          {| Rect.id := Rect.id cur;
             Rect.x := Rect.x cur;
             Rect.y := Rect.y cur;
             Rect.width := roundDouble (px pos - px start);
             Rect.height := roundDouble (py pos - py start);
             Rect.color := Rect.color cur |} in
        setCurrentRect (Some newRect) st
    | _, _ => st
    end.

(** The rectangle [handleMouseUp] builds from the provisional one. *)
Definition finalRect (cur : Rect.t) : Rect.t :=
  {| Rect.id := Rect.id cur;
     Rect.x := if Qltb 0 (Rect.width cur) then Rect.x cur
               else Rect.x cur + Rect.width cur;
     Rect.y := if Qltb 0 (Rect.height cur) then Rect.y cur
               else Rect.y cur + Rect.height cur;
     Rect.width := Qabs (Rect.width cur);
     Rect.height := Qabs (Rect.height cur);
     Rect.color := Rect.color cur |}.

Definition bigEnough (cur : Rect.t) : bool :=
  Qltb 5 (Qabs (Rect.width cur)) && Qltb 5 (Qabs (Rect.height cur)).

Definition handleMouseUp (st : Canvas) : Canvas :=
  let st1 :=
    match currentRect st with
    | Some cur =>
        if bigEnough cur
        then setRectangles (rectangles st ++ [objOfRect (finalRect cur)]) st
        else st
    | None => st
    end in
  setCurrentRect None (setStartPoint None st1).

(** ** Moving and resizing *)

(** What the handlers read from the Konva node of an event, [e.target]. *)
Record node : Type :=
  { nodeX : Q; nodeY : Q; scaleX : Q; scaleY : Q }.

(** The callback of [rectangles.map] in [handleDragEnd]. *)
Definition movedRect (n : node) (id : jsval) (rect : value) : option value :=
  rid <- getProp "id" rect ;;
  same <- strictEq rid id ;;
  if same then
    props <- spread rect ;;
    Some (JObj (setProp "y" (JNum (nodeY n))
                  (setProp "x" (JNum (nodeX n)) props)))
  else Some rect.

Definition handleDragEnd (n : node) (id : jsval) (st : Canvas)
  : option Canvas :=
  updatedRects <- mapM (movedRect n id) (rectangles st) ;;
  Some (setRectangles updatedRects st).

(** The callback of [rectangles.map] in [handleTransformEnd]; [sX] and [sY]
    are the scale factors read before the node was reset. *)
Definition resizedRect (n : node) (sX sY : Q) (id : jsval) (rect : value)
  : option value :=
  rid <- getProp "id" rect ;;
  same <- strictEq rid id ;;
  if same then
    props <- spread rect ;;
    w <- bind (getProp "width" rect) toNumber ;;
    h <- bind (getProp "height" rect) toNumber ;;
    Some (JObj (setProp "height" (JNum (Qmax 5 (h * sY)))
                  (setProp "width" (JNum (Qmax 5 (w * sX)))
                     (setProp "y" (JNum (nodeY n))
                        (setProp "x" (JNum (nodeX n)) props)))))
  else Some rect.

(** The handler also writes to the node: it comes back with its scale reset. *)
Definition handleTransformEnd (n : node) (id : jsval) (st : Canvas)
  : option (node * Canvas) :=
  let sX := scaleX n in
  let sY := scaleY n in
  let n1 := {| nodeX := nodeX n; nodeY := nodeY n; scaleX := 1; scaleY := 1 |} in
  updatedRects <- mapM (resizedRect n1 sX sY id) (rectangles st) ;;
  Some (n1, setRectangles updatedRects st).

(** The [boundBoxFunc] of the transformer. *)
Record box : Type :=
  { boxX : Q; boxY : Q; boxWidth : Q; boxHeight : Q; rotation : Q }.

Definition boundBoxFunc (oldBox newBox : box) : box :=
  if Qltb (boxWidth newBox) 5 || Qltb (boxHeight newBox) 5 then oldBox
  else newBox.

(** ** Selection, deletion *)

Definition deleteSelected (st : Canvas) : option Canvas :=
  if truthy (selectedId st) then
    kept <-
      filterM (fun rect =>
                 rid <- getProp "id" rect ;;
                 same <- strictEq rid (selectedId st) ;;
                 Some (negb same))
              (rectangles st) ;;
    Some (setSelectedId null (setRectangles kept st))
  else Some st.

Definition clearAll (st : Canvas) : Canvas :=
  setSelectedId null (setRectangles [] st).

(** ** Files *)

(** What [JSON.parse] makes of a text: it throws, or returns a tree. *)
Inductive document : Type :=
| SyntaxError
| Parsed (data : value).

(** [reader.onload], given the outcome of [JSON.parse(event.target.result)]. *)
Definition onload (result : document) (st : Canvas) : Canvas :=
  match result with
  | Parsed data =>
      match data with
      | JArr items => setSelectedId null (setRectangles items st)
      | _ => st
      end
  | SyntaxError => setError "Invalid file format" st
  end.

(** [JSON.parse] and [JSON.stringify(_, null, 2)] belong to the platform:
    the two handlers take them as parameters. *)
Section Codec.

Variable text : Type.
Variable JSON_parse : text -> document.
Variable JSON_stringify : value -> text.

(** [file] is [e.target.files[0]], given by its contents. *)
Definition loadFromFile (file : option text) (st : Canvas) : Canvas :=
  match file with
  | None => st
  | Some contents => onload (JSON_parse contents) st
  end.

(** The text [exportToFile] hands to the browser for download. *)
Definition exportToFile (st : Canvas) : text :=
  JSON_stringify (JArr (rectangles st)).

End Codec.

Arguments loadFromFile {text} JSON_parse file st.
Arguments exportToFile {text} JSON_stringify st.

(** A file that is given by what [JSON.parse] makes of its text. *)
Definition parsedAlready (result : document) : document := result.

(** ** The persistence service *)

(** One element of the answer to [GET /api/annotations], and the answer to a
    [POST]. *)
Record annotation : Type :=
  { _id : string; savedRectangles : list value }.

Inductive request : Type :=
| POST (data : list value)
| PUT (id : string) (data : list value).

Definition body (r : request) : list value :=
  match r with
  | POST data => data
  | PUT _ data => data
  end.

(** A function of the component body belongs to one render and sees the state
    of that render; [saveAnnotations] reads [rectangles] and [annotationId]. *)
Record closure : Type :=
  { seenRectangles : list value; seenAnnotationId : option string }.

Definition render (st : Canvas) : closure :=
  {| seenRectangles := rectangles st; seenAnnotationId := annotationId st |}.

(** [saveAnnotations] up to its [await]: the request it sends. *)
Definition saveRequest (c : closure) : request :=
  match seenAnnotationId c with
  | Some id =>
      if negb (id =? "")%string then PUT id (seenRectangles c)
      else POST (seenRectangles c)
  | None => POST (seenRectangles c)
  end.

(** [saveAnnotations] after its [await]; [outcome] is [None] when the request
    failed and the [_id] of the response otherwise. *)
Definition saveSettled (req : request) (outcome : option string) (st : Canvas)
  : Canvas :=
  match outcome with
  | Some newId =>
      setError ""
        match req with
        | POST _ => setAnnotationId (Some newId) st
        | PUT _ _ => st
        end
  | None => setError "Failed to save annotations" st
  end.

(** [fetchAnnotations] after its [await]; [outcome] is [None] when the request
    failed. *)
Definition fetchSettled (outcome : option (list annotation)) (st : Canvas)
  : Canvas :=
  setLoading false
    match outcome with
    | Some data =>
        match rev data with
        | latest :: _ =>
            setAnnotationId (Some (_id latest))
              (setRectangles (savedRectangles latest) st)
        | [] => st
        end
    | None => setError "Failed to load annotations" st
    end.

(** ** Rendering *)

Fixpoint findM {A : Type} (f : A -> option bool) (l : list A)
  : option (option A) :=
  match l with
  | [] => Some None
  | a :: rest => hit <- f a ;; if hit then Some (Some a) else findM f rest
  end.

(** [rectangles.find(rect => rect.id === selectedId) || null]. *)
Definition getSelectedRect (st : Canvas) : option jsval :=
  found <-
    findM (fun rect => rid <- getProp "id" rect ;; strictEq rid (selectedId st))
          (rectangles st) ;;
  Some match found with
       | Some rect => if truthy (Def rect) then Def rect else null
       | None => null
       end.

(** [key={rect.id}]: React turns the key into a string.  An object or an
    array is converted through its methods, which is not modelled. *)
Definition keyOf (a : jsval) : option jsval :=
  match a with
  | Def (JArr _) | Def (JObj _) => None
  | _ => Some a
  end.

(** The attributes of one [<Rect>] of the layer: [rect.id], [rect.x],
    [rect.y], [rect.width], [rect.height] and [rect.color].  Reading them
    from [null] throws. *)
Record shape : Type :=
  { shapeId : jsval; shapeX : jsval; shapeY : jsval;
    shapeWidth : jsval; shapeHeight : jsval; fill : jsval }.

Definition shapeOf (rect : value) : option shape :=
  i <- bind (getProp "id" rect) keyOf ;;
  a <- getProp "x" rect ;;
  b <- getProp "y" rect ;;
  w <- getProp "width" rect ;;
  h <- getProp "height" rect ;;
  c <- getProp "color" rect ;;
  Some {| shapeId := i; shapeX := a; shapeY := b;
          shapeWidth := w; shapeHeight := h; fill := c |}.

(** What the body of the component returns: the loading notice, or the
    editor with its information panel and the rectangles of the layer. *)
Inductive screen : Type :=
| LoadingNotice
| Editor (selectedRect : jsval) (shapes : list shape).

(** The body of the component, from [const selectedRect = getSelectedRect()]
    on.  No result when it throws. *)
Definition view (st : Canvas) : option screen :=
  selectedRect <- getSelectedRect st ;;
  if loading st then Some LoadingNotice
  else shapes <- mapM shapeOf (rectangles st) ;;
       Some (Editor selectedRect shapes).

(** ** The component in the browser *)

(** An entry of the timer table: the handle [setTimeout] returned, the time at
    which the callback is due, and the [saveAnnotations] it will call. *)
Record timeout : Type :=
  { handle : nat; due : Z; callback : closure }.

Record World : Type := mkWorld
  { ui : Canvas;
    clock : Z;
    timers : list timeout;
    nextHandle : nat;
    (** the cleanup function the auto-save effect returned when it last ran,
        by the handle it clears *)
    cleanup : option nat;
    (** requests sent and not yet answered *)
    inFlight : list request;
    (** every request sent, oldest first, with the time it was sent at *)
    sent : list (Z * request) }.

Definition withUi (st : Canvas) (w : World) : World :=
  {| ui := st; clock := clock w; timers := timers w;
     nextHandle := nextHandle w; cleanup := cleanup w;
     inFlight := inFlight w; sent := sent w |}.

Definition withInFlight (l : list request) (w : World) : World :=
  {| ui := ui w; clock := clock w; timers := timers w;
     nextHandle := nextHandle w; cleanup := cleanup w;
     inFlight := l; sent := sent w |}.

Definition clearTimeout (h : nat) (ts : list timeout) : list timeout :=
  filter (fun t => negb (handle t =? h)%nat) ts.

(** Calling the [saveAnnotations] of the closure [c] at time [now]. *)
Definition saveAnnotations (now : Z) (c : closure) (w : World) : World :=
  {| ui := ui w; clock := clock w; timers := timers w;
     nextHandle := nextHandle w; cleanup := cleanup w;
     inFlight := inFlight w ++ [saveRequest c];
     sent := sent w ++ [(now, saveRequest c)] |}.

(** The dependency list [[rectangles, autoSave]] between two renders. *)
Definition depsChanged (before after : Canvas) : bool :=
  negb (generation before =? generation after)%nat
  || negb (Bool.eqb (autoSave before) (autoSave after)).

(** The auto-save effect after a render that replaced the state [before] by
    [ui w]: when a dependency changed, the previous cleanup runs, then the
    effect. *)
Definition autoSaveEffect (before : Canvas) (w : World) : World :=
  if depsChanged before (ui w) then
    let remaining :=
      match cleanup w with
      | Some h => clearTimeout h (timers w)
      | None => timers w
      end in
    if autoSave (ui w) && (0 <? List.length (rectangles (ui w)))%nat then
      {| ui := ui w; clock := clock w;
         timers := remaining ++ [ {| handle := nextHandle w;
                                     due := clock w + 2000;
                                     callback := render (ui w) |} ];
         nextHandle := S (nextHandle w);
         cleanup := Some (nextHandle w);
         inFlight := inFlight w; sent := sent w |}
    else
      {| ui := ui w; clock := clock w; timers := remaining;
         nextHandle := nextHandle w; cleanup := None;
         inFlight := inFlight w; sent := sent w |}
  else w.

(** A state update that the component survives, followed by the effect of
    the render it causes. *)
Definition update (st : Canvas) (w : World) : World :=
  autoSaveEffect (ui w) (withUi st w).

(** A state update and the render it causes.  When the render throws, React
    unmounts the component: no effect runs, the cleanup of the last effect
    clears the pending timeout, and no handler is called any more. *)
Definition rerender (st : Canvas) (w : World) : option World :=
  match view st with
  | Some _ => Some (update st w)
  | None => None
  end.

Definition isDue (now : Z) (t : timeout) : bool := (due t <=? now)%Z.

(** Time passes until [now]: the callbacks that came due run, each at its due
    time. *)
Definition advance (now : Z) (w : World) : World :=
  fold_left (fun w' t => saveAnnotations (due t) (callback t) w')
    (filter (isDue now) (timers w))
    {| ui := ui w; clock := now;
       timers := filter (fun t => negb (isDue now t)) (timers w);
       nextHandle := nextHandle w; cleanup := cleanup w;
       inFlight := inFlight w; sent := sent w |}.

Inductive event : Type :=
| FetchSettled (outcome : option (list annotation))
| ToggleDrawing
| MouseDown (onStage : bool) (pos : point) (rnd : Q)
| MouseMove (pos : point)
| MouseUp
| Click (i : nat)
| DragEnd (i : nat) (n : node)
| TransformEnd (i : nat) (n : node)
| DeleteSelected
| ClearAll
| SaveToDatabase
| ExportToFile
| FileChosen (file : option document)
| AutoSaveChanged (checked : bool)
| SaveSettled (k : nat) (outcome : option string)
| Idle.

(** The [id] attribute of the [i]-th rendered rectangle. *)
Definition idOf (i : nat) (st : Canvas) : option jsval :=
  rect <- nth_error (rectangles st) i ;; getProp "id" rect.

Definition removeNth {A : Type} (k : nat) (l : list A) : list A :=
  firstn k l ++ skipn (S k) l.

(** The handlers of the interface that only touch the state; [now] is the
    time of the event.  [None]: the control is disabled or absent, the
    handler throws, or its result is outside the model. *)
Definition handle_ui (now : Z) (e : event) (st : Canvas) : option Canvas :=
  match e with
  | ToggleDrawing => Some (setIsDrawing (negb (isDrawing st)) st)
  | MouseDown onStage pos rnd => Some (handleMouseDown onStage pos now rnd st)
  | MouseMove pos => Some (handleMouseMove pos st)
  | MouseUp => Some (handleMouseUp st)
  | Click i => id <- idOf i st ;; Some (setSelectedId id st)
  | DragEnd i n => id <- idOf i st ;; handleDragEnd n id st
  | TransformEnd i n =>
      id <- idOf i st ;; r <- handleTransformEnd n id st ;; Some (snd r)
  | DeleteSelected =>
      if truthy (selectedId st) then deleteSelected st else None
  | ClearAll =>
      if (List.length (rectangles st) =? 0)%nat then None else Some (clearAll st)
  | ExportToFile =>
      if (List.length (rectangles st) =? 0)%nat then None else Some st
  | FileChosen file => Some (loadFromFile parsedAlready file st)
  | AutoSaveChanged checked => Some (setAutoSave checked st)
  | FetchSettled _ | SaveToDatabase | SaveSettled _ _ | Idle => None
  end.

(** One event at time [now], for a component that is mounted. *)
Definition step (w : World) (now : Z) (e : event) : option World :=
  if (now <? clock w)%Z then None
  else
    let w1 := advance now w in
    match e with
    | Idle => Some w1
    | FetchSettled outcome =>
        if loading (ui w1) then rerender (fetchSettled outcome (ui w1)) w1
        else None
    | SaveSettled k outcome =>
        req <- nth_error (inFlight w1) k ;;
        rerender (saveSettled req outcome (ui w1))
          (withInFlight (removeNth k (inFlight w1)) w1)
    | SaveToDatabase =>
        if loading (ui w1) || (List.length (rectangles (ui w1)) =? 0)%nat then None
        else Some (saveAnnotations now (render (ui w1)) w1)
    | _ =>
        if loading (ui w1) then None
        else st <- handle_ui now e (ui w1) ;; rerender st w1
    end.

(** The component right after it is mounted at time [t0]: the first render,
    with the request of [fetchAnnotations] on its way. *)
Definition mount (t0 : Z) : World :=
  {| ui := initial; clock := t0; timers := []; nextHandle := 0;
     cleanup := None; inFlight := []; sent := [] |}.

Inductive reachable : World -> Prop :=
| reachable_mount : forall t0, reachable (mount t0)
| reachable_step : forall w now e w',
    reachable w -> step w now e = Some w' -> reachable w'.

(** Running a list of timed events. *)
Fixpoint run (w : World) (events : list (Z * event)) : option World :=
  match events with
  | [] => Some w
  | (now, e) :: rest => w' <- step w now e ;; run w' rest
  end.

(** A whole drawing gesture on the stage: pointer-down at [from], a move to
    [to], pointer-up. *)
Definition gesture (from to : point) (now : Z) (rnd : Q) (st : Canvas)
  : Canvas :=
  handleMouseUp (handleMouseMove to (handleMouseDown true from now rnd st)).

(** The provisional rectangle of that gesture when the pointer goes up. *)
Definition provisional (from to : point) (now : Z) (rnd : Q) : Rect.t :=
  {| Rect.id := freshId now;
     Rect.x := px from;
     Rect.y := py from;
     Rect.width := roundDouble (px to - px from);
     Rect.height := roundDouble (py to - py from);
     Rect.color := randomColor rnd |}.

Definition pt (a b : Z) : point := {| px := inject_Z a; py := inject_Z b |}.

(** The timer table right after the auto-save effect ran at time [now] for
    the state [st], when [h] was the next free handle. *)
Definition scheduled (h : nat) (now : Z) (st : Canvas) : list timeout :=
  if autoSave st && (0 <? List.length (rectangles st))%nat
  then [ {| handle := h; due := now + 2000; callback := render st |} ]
  else [].

(** The request a click on "Save to Database" sends. *)
Definition manualSave (now : Z) (e : event) (st : Canvas)
  : list (Z * request) :=
  match e with
  | SaveToDatabase => [(now, saveRequest (render st))]
  | _ => []
  end.

(** The requests of the timeouts that come due by [now]. *)
Definition fired (now : Z) (w : World) : list (Z * request) :=
  map (fun t => (due t, saveRequest (callback t)))
      (filter (isDue now) (timers w)).

(** ** Invariants of the running component *)

(** The selection is null or is the [id] of a stored rectangle. *)
Definition selectionOk (st : Canvas) : Prop :=
  selectedId st = null \/
  exists rect, In rect (rectangles st) /\ getProp "id" rect = Some (selectedId st).

(** A pending auto-save timeout is the one the current cleanup clears, is
    not yet due, and will save the current, non-empty list. *)
Definition timerOk (w : World) (t : timeout) : Prop :=
  cleanup w = Some (handle t) /\
  (clock w < due t <= clock w + 2000)%Z /\
  seenRectangles (callback t) = rectangles (ui w) /\
  rectangles (ui w) <> [] /\
  autoSave (ui w) = true.

Record invariant (w : World) : Prop := mkInvariant
  { inv_timers : timers w = [] \/ exists t, timers w = [t] /\ timerOk w t;
    inv_sent : Forall (fun p => body (snd p) <> []) (sent w);
    inv_selection : selectionOk (ui w);
    inv_loading : loading (ui w) = true -> selectedId (ui w) = null }.

(** ** The shape of a Rectangle record *)

(** An object with a string [id], numeric [x], [y], [width] and [height] and
    a string [color]; it may have other properties too. *)
Definition rectShaped (v : value) : bool :=
  match v with
  | JObj props =>
      match lookup "id" props, lookup "x" props, lookup "y" props,
            lookup "width" props, lookup "height" props, lookup "color" props
      with
      | Def (JStr _), Def (JNum _), Def (JNum _),
        Def (JNum _), Def (JNum _), Def (JStr _) => true
      | _, _, _, _, _, _ => false
      end
  | _ => false
  end.

(** ** The selected rectangle *)

(** Whether [rect.id === a] holds; false where the comparison has no
    result. *)
Definition hasId (a : jsval) (rect : value) : bool :=
  match getProp "id" rect with
  | Some rid =>
      match strictEq rid a with
      | Some same => same
      | None => false
      end
  | None => false
  end.

(** ** Rectangles no smaller than the floor *)

(** A Rectangle record whose width and height are at least 5. *)
Definition atLeast5 (v : value) : bool :=
  rectShaped v &&
  match getProp "width" v, getProp "height" v with
  | Some (Def (JNum w)), Some (Def (JNum h)) => Qle_bool 5 w && Qle_bool 5 h
  | _, _ => false
  end.

Definition boxAtLeast5 (b : box) : bool :=
  Qle_bool 5 (boxWidth b) && Qle_bool 5 (boxHeight b).

(** An event that brings rectangles in from outside (the answer of the
    service, an imported file) is well-formed when all of them are Rectangle
    records of at least 5 by 5; every other event is. *)
Definition wellFormedInput (e : event) : bool :=
  match e with
  | FetchSettled (Some data) =>
      forallb (fun a => forallb atLeast5 (savedRectangles a)) data
  | FileChosen (Some (Parsed (JArr items))) => forallb atLeast5 items
  | _ => true
  end.

(** ** Identifiers in a session *)

Definition idsOf (l : list value) : list (option jsval) :=
  map (getProp "id") l.

(** A rectangle whose id is the one of a pointer-down at some time from 0 to
    [last]. *)
Definition drawnBy (last : Z) (rect : value) : Prop :=
  exists t, (0 <= t <= last)%Z /\
            getProp "id" rect = Some (Def (JStr (freshId t))).

(** The stored rectangles were drawn, by pointer-downs no later than [last],
    and have pairwise different ids, and the provisional rectangle, if there
    is one, was started no later than [last] with an id that none of them
    has. *)
Definition uniqueIds (last : Z) (st : Canvas) : Prop :=
  (-1 <= last)%Z /\
  NoDup (idsOf (rectangles st)) /\
  Forall (drawnBy last) (rectangles st) /\
  forall cur, currentRect st = Some cur ->
    exists t, (0 <= t <= last)%Z /\ Rect.id cur = freshId t /\
              ~ In (Some (Def (JStr (freshId t)))) (idsOf (rectangles st)).

(** An event that brings no rectangles in from outside. *)
Definition bringsNothingIn (e : event) : bool :=
  match e with
  | FetchSettled (Some (_ :: _)) => false
  | FileChosen (Some (Parsed (JArr _))) => false
  | _ => true
  end.

(** No event of the session brings rectangles in, and every pointer-down
    comes at a later millisecond than [last] and than the pointer-downs
    before it. *)
Fixpoint drawnInTurn (last : Z) (events : list (Z * event)) : bool :=
  match events with
  | [] => true
  | (now, MouseDown _ _ _) :: rest => (last <? now)%Z && drawnInTurn now rest
  | (_, e) :: rest => bringsNothingIn e && drawnInTurn last rest
  end.

(** The events that call neither [setRectangles] nor [setAutoSave]. *)
Definition leavesListAlone (e : event) : bool :=
  match e with
  | ToggleDrawing | MouseDown _ _ _ | MouseMove _ | Click _ | ExportToFile
  | SaveToDatabase | SaveSettled _ _ | Idle => true
  | _ => false
  end.

(** ** The login form *)

(** The [Login] component: its state, [handleSubmit] on both sides of its
    [await], and the form in the browser. *)
Module Login.

Record t : Type := mk
  { isLogin : bool;
    username : string;
    password : string;
    error : jsval;
    loading : bool }.

Definition initial : t :=
  {| isLogin := true; username := ""; password := "";
     error := Def (JStr ""); loading := false |}.

Definition setIsLogin (b : bool) (st : t) : t :=
  {| isLogin := b; username := username st; password := password st;
     error := error st; loading := loading st |}.

Definition setUsername (s : string) (st : t) : t :=
  {| isLogin := isLogin st; username := s; password := password st;
     error := error st; loading := loading st |}.

Definition setPassword (s : string) (st : t) : t :=
  {| isLogin := isLogin st; username := username st; password := s;
     error := error st; loading := loading st |}.

Definition setError (a : jsval) (st : t) : t :=
  {| isLogin := isLogin st; username := username st; password := password st;
     error := a; loading := loading st |}.

Definition setLoading (b : bool) (st : t) : t :=
  {| isLogin := isLogin st; username := username st; password := password st;
     error := error st; loading := b |}.

(** The request of [axios.post]. *)
Record request : Type :=
  { url : string; sentUsername : string; sentPassword : string }.

(** [handleSubmit] up to its [await]: the state it leaves and the request. *)
Definition handleSubmit (st : t) : t * request :=
  let endpoint :=
    if isLogin st then "/api/auth/login" else "/api/auth/register" in
  (setLoading true (setError (Def (JStr "")) st),
   {| url := ("https://vecrossbackend.onrender.com" ++ endpoint)%string;
      sentUsername := username st;
      sentPassword := password st |}).

(** The outcome of the request: the [token] and [user] of the response, or
    an error with [err.response?.data?.message]. *)
Inductive answer : Type :=
| Granted (token user : jsval)
| Refused (message : jsval).

(** [handleSubmit] after its [await]: the state, and the arguments of
    [onLogin] when it is called. *)
Definition settled (a : answer) (st : t) : t * option (jsval * jsval) :=
  match a with
  | Granted token user => (setLoading false st, Some (token, user))
  | Refused message =>
      (setLoading false
         (setError (if truthy message then message
                    else Def (JStr "An error occurred")) st),
       None)
  end.

(** A whole run of [handleSubmit], answered by [a]. *)
Definition submission (a : answer) (st : t) : t * option (jsval * jsval) :=
  settled a (fst (handleSubmit st)).

(** Whether React accepts a value as a child of an element: it refuses a
    plain object, and the render throws; it accepts an array whose items it
    accepts. *)
Fixpoint validChild (v : value) : bool :=
  match v with
  | JObj _ => false
  | JArr items => forallb validChild items
  | JNull | JBool _ | JNum _ | JStr _ => true
  end.

(** [{error && <div className="error-message">{error}</div>}]: the child of
    the error box, when there is one.  No result when React refuses the
    child.  ([error] is the empty string or truthy; a falsy one shows no
    box.) *)
Definition errorBox (st : t) : option (option value) :=
  match error st with
  | Undefined => Some None
  | Def v =>
      if truthy (Def v)
      then if validChild v then Some (Some v) else None
      else Some None
  end.

(** The form in the browser: the request under way and the calls of
    [onLogin] so far. *)
Record form : Type :=
  { state : t; pending : option request; calls : list (jsval * jsval) }.

Inductive event : Type :=
| TypeUsername (s : string)
| TypePassword (s : string)
| Submit
| ToggleMode
| Answer (a : answer).

(** The handler of one event.  The inputs and both buttons are disabled
    while [loading], and the browser does not submit a form with an empty
    [required] input. *)
Definition dispatch (f : form) (e : event) : option form :=
  match e with
  | TypeUsername s =>
      if loading (state f) then None
      else Some {| state := setUsername s (state f); pending := pending f;
                   calls := calls f |}
  | TypePassword s =>
      if loading (state f) then None
      else Some {| state := setPassword s (state f); pending := pending f;
                   calls := calls f |}
  | ToggleMode =>
      if loading (state f) then None
      else Some {| state := setIsLogin (negb (isLogin (state f))) (state f);
                   pending := pending f; calls := calls f |}
  | Submit =>
      if loading (state f) || (username (state f) =? "")%string
         || (password (state f) =? "")%string
      then None
      else Some {| state := fst (handleSubmit (state f));
                   pending := Some (snd (handleSubmit (state f)));
                   calls := calls f |}
  | Answer a =>
      match pending f with
      | Some _ =>
          Some {| state := fst (settled a (state f)); pending := None;
                  calls := calls f ++
                           match snd (settled a (state f)) with
                           | Some call => [call]
                           | None => []
                           end |}
      | None => None
      end
  end.

(** One event and the render it causes.  When the render throws, React
    unmounts the form: there is no form to go on with. *)
Definition step (f : form) (e : event) : option form :=
  f' <- dispatch f e ;;
  match errorBox (state f') with
  | Some _ => Some f'
  | None => None
  end.

Definition mounted : form :=
  {| state := initial; pending := None; calls := [] |}.

Fixpoint run (f : form) (events : list event) : option form :=
  match events with
  | [] => Some f
  | e :: rest => f' <- step f e ;; run f' rest
  end.

(** How many of the events are granted answers. *)
Definition granted (events : list event) : nat :=
  List.length
    (filter (fun e => match e with Answer (Granted _ _) => true | _ => false end)
            events).

End Login.

(** The form is loading exactly while a request is under way, and that
    request carries the mode and the credentials the form shows. *)
Definition loginFormOk (f : Login.form) : Prop :=
  (Login.loading (Login.state f) = true <-> Login.pending f <> None) /\
  forall req,
    Login.pending f = Some req ->
    req = snd (Login.handleSubmit (Login.state f)) /\
    Login.sentUsername req <> ""%string /\ Login.sentPassword req <> ""%string.

(** ** Sample states *)

(** The editor once the annotations are loaded and none existed, with
    drawing mode switched on. *)
Definition drawingCanvas : Canvas :=
  setIsDrawing true (fetchSettled (Some []) initial).

(** The same editor after one rectangle was drawn from (100,100) to (40,60). *)
Definition drawnCanvas : Canvas :=
  gesture (pt 100 100) (pt 40 60) 1000 (1 # 2) drawingCanvas.

(** The same editor with that rectangle selected. *)
Definition selectedCanvas : Canvas :=
  setSelectedId (Def (JStr "rect-1000")) drawnCanvas.

(** A session: the annotations load and there are none, drawing mode and
    auto-save are switched on, one rectangle is drawn (pointer-up at 1200 ms),
    "Save to Database" is clicked at 1700 ms and its answer, with the id [A],
    arrives at 1900 ms. *)
Definition savedOnce : list (Z * event) :=
  [ (10%Z, FetchSettled (Some []));
    (20%Z, ToggleDrawing);
    (30%Z, AutoSaveChanged true);
    (1000%Z, MouseDown true (pt 100 100) (1 # 2));
    (1100%Z, MouseMove (pt 40 60));
    (1200%Z, MouseUp);
    (1700%Z, SaveToDatabase);
    (1900%Z, SaveSettled 0 (Some "A")) ].

(** A session with auto-save on, in the middle of drawing a rectangle. *)
Definition drawnOnce : list (Z * event) :=
  [ (10%Z, FetchSettled (Some []));
    (20%Z, ToggleDrawing);
    (30%Z, AutoSaveChanged true);
    (1000%Z, MouseDown true (pt 100 100) (1 # 2));
    (1100%Z, MouseMove (pt 40 60)) ].

(** The session goes on: nothing happens until 3300 ms, and the answer to
    the request sent meanwhile, with the id [B], arrives at 3400 ms. *)
Definition savedTwice : list (Z * event) := savedOnce ++ [(3300%Z, Idle)].

Definition answeredTwice : list (Z * event) :=
  savedTwice ++ [(3400%Z, SaveSettled 0 (Some "B"))].

Definition worldAfter (events : list (Z * event)) : World :=
  match run (mount 0) events with
  | Some w => w
  | None => mount 0
  end.

(** The editor in the middle of that gesture, before the pointer goes up. *)
Definition trackingCanvas : Canvas :=
  handleMouseMove (pt 40 60)
    (handleMouseDown true (pt 100 100) 1000 (1 # 2) drawingCanvas).

(** A node dragged to (10,20) and scaled by 1/2 and by 1/100. *)
Definition shrunkNode : node :=
  {| nodeX := 10; nodeY := 20; scaleX := 1 # 2; scaleY := 1 # 100 |}.

(** The rest of the session [drawnOnce]: the pointer goes up at 1200 ms, the
    rectangle is dragged at 3100 ms, and nothing happens until 5100 ms. *)
Definition firstEdit : list (Z * event) := drawnOnce ++ [(1200%Z, MouseUp)].

Definition secondEdit : list (Z * event) :=
  firstEdit ++ [(3100%Z, DragEnd 0 shrunkNode)].

Definition thenQuiet : list (Z * event) := secondEdit ++ [(5100%Z, Idle)].

(** * Properties *)

(** ** Arithmetic of the comparisons *)

Lemma Qltb_lt (a b : Q) : Qltb a b = true <-> a < b.
Proof.
  unfold Qltb. rewrite negb_true_iff. split.
  - intros H. apply Qnot_le_lt. intros Hle.
    apply Qle_bool_iff in Hle. congruence.
  - intros H. destruct (Qle_bool b a) eqn:E; [|reflexivity].
    apply Qle_bool_iff in E. exfalso. exact (Qlt_not_le _ _ H E).
Qed.

Lemma Qltb_ge (a b : Q) : Qltb a b = false <-> b <= a.
Proof.
  unfold Qltb. rewrite negb_false_iff. apply Qle_bool_iff.
Qed.

Lemma bigEnough_iff (cur : Rect.t) :
  bigEnough cur = true <->
  5 < Qabs (Rect.width cur) /\ 5 < Qabs (Rect.height cur).
Proof.
  unfold bigEnough. rewrite andb_true_iff, !Qltb_lt. reflexivity.
Qed.

Lemma app_one_neq {A : Type} (l : list A) (a : A) : l ++ [a] <> l.
Proof.
  intros H. apply (f_equal (@List.length A)) in H.
  rewrite length_app in H. simpl in H. lia.
Qed.

(** ** Drawing *)

Lemma handleMouseUp_rectangles (st : Canvas) :
  rectangles (handleMouseUp st) =
  match currentRect st with
  | Some cur =>
      if bigEnough cur then rectangles st ++ [objOfRect (finalRect cur)]
      else rectangles st
  | None => rectangles st
  end.
Proof.
  unfold handleMouseUp.
  destruct (currentRect st) as [cur|]; [destruct (bigEnough cur)|]; reflexivity.
Qed.

Lemma gesture_provisional (from to : point) (now : Z) (rnd : Q) (st : Canvas) :
  isDrawing st = true ->
  let st' := handleMouseMove to (handleMouseDown true from now rnd st) in
  currentRect st' = Some (provisional from to now rnd) /\
  rectangles st' = rectangles st.
Proof.
  intros Hdraw. unfold handleMouseMove, handleMouseDown.
  rewrite Hdraw. simpl. rewrite Hdraw. simpl. split; reflexivity.
Qed.

Lemma gesture_rectangles (from to : point) (now : Z) (rnd : Q) (st : Canvas) :
  isDrawing st = true ->
  rectangles (gesture from to now rnd st) =
  if bigEnough (provisional from to now rnd)
  then rectangles st ++ [objOfRect (finalRect (provisional from to now rnd))]
  else rectangles st.
Proof.
  intros Hdraw. unfold gesture. rewrite handleMouseUp_rectangles.
  destruct (gesture_provisional from to now rnd st Hdraw) as [-> ->].
  reflexivity.
Qed.

Lemma roundHalfEven_unit (n : Z) : roundHalfEven n 1 = n.
Proof.
  unfold roundHalfEven. rewrite Z.mod_1_r, Z.div_1_r. reflexivity.
Qed.

Lemma Qred_inject_Z (z : Z) : Qred (inject_Z z) = inject_Z z.
Proof.
  pose proof (Qred_correct (inject_Z z)) as He.
  pose proof (gcd_Qred (inject_Z z)) as Hg.
  destruct (Qred (inject_Z z)) as [n d]. unfold Qeq in He. simpl in He, Hg.
  rewrite Z.mul_1_r in He. subst n.
  rewrite Z.gcd_comm, (Z.mul_comm z), Z.gcd_mul_diag_l in Hg by lia.
  injection Hg as ->. unfold inject_Z. f_equal. lia.
Qed.

(** A difference of integers below [2 ^ 53] is a double: nothing is
    rounded. *)
Lemma roundDouble_integer (q : Q) :
  Qden q = 1%positive -> (Z.abs (Qnum q) < 2 ^ 53)%Z ->
  roundDouble q = inject_Z (Qnum q).
Proof.
  destruct q as [z d]. simpl. intros -> Hz. unfold roundDouble.
  cbn [Qnum Qden].
  destruct (Z.abs z =? 0)%Z eqn:E0.
  { apply Z.eqb_eq in E0. destruct z; try discriminate E0. reflexivity. }
  apply Z.eqb_neq in E0.
  assert (Hpos : (0 < Z.abs z)%Z) by (pose proof (Z.abs_nonneg z); lia).
  change (Z.log2 1) with 0%Z. rewrite Z.sub_0_r.
  pose proof (Z.log2_nonneg (Z.abs z)) as Hk0.
  pose proof (proj1 (Z.log2_spec _ Hpos)) as Hlow.
  assert (Hk : (Z.log2 (Z.abs z) < 53)%Z)
    by (apply Z.log2_lt_pow2; [exact Hpos|exact Hz]).
  replace (0 <=? Z.log2 (Z.abs z))%Z with true
    by (symmetry; apply Z.leb_le; exact Hk0).
  replace (1 * 2 ^ Z.log2 (Z.abs z) <=? Z.abs z)%Z with true
    by (symmetry; apply Z.leb_le; lia).
  rewrite Z.max_l by lia.
  destruct (0 <=? Z.log2 (Z.abs z) - 52)%Z eqn:Ee.
  - apply Z.leb_le in Ee.
    replace (Z.log2 (Z.abs z) - 52)%Z with 0%Z by lia.
    change (2 ^ 0)%Z with 1%Z. change (1 * 1)%Z with 1%Z.
    rewrite roundHalfEven_unit, Z.mul_1_r.
    f_equal. rewrite Z.mul_comm. apply Z.abs_sgn.
  - apply Z.leb_gt in Ee. rewrite roundHalfEven_unit.
    set (P := (2 ^ (- (Z.log2 (Z.abs z) - 52)))%Z).
    assert (HP : (0 < P)%Z) by (apply Z.pow_pos_nonneg; lia).
    rewrite <- (Qred_inject_Z z).
    apply Qred_complete. unfold Qeq. cbn [Qnum Qden inject_Z].
    rewrite Z2Pos.id by exact HP.
    rewrite Z.mul_1_r, Z.mul_assoc. f_equal.
    rewrite Z.mul_comm. apply Z.abs_sgn.
Qed.

Lemma pt_difference (a c : Z) :
  (Z.abs (c - a) < 2 ^ 53)%Z ->
  roundDouble (inject_Z c - inject_Z a) = inject_Z (c - a).
Proof.
  intros H. rewrite roundDouble_integer.
  - simpl. f_equal. lia.
  - reflexivity.
  - simpl. replace (c * 1 + - a * 1)%Z with (c - a)%Z by lia. exact H.
Qed.

(** The corner and the side of a rectangle drawn between two integer
    coordinates that are [k] apart. *)
Lemma integer_side (a c k : Z) :
  (0 < k < 2 ^ 53)%Z -> Z.abs (c - a) = k ->
  let w := roundDouble (inject_Z c - inject_Z a) in
  Qabs w = inject_Z k /\
  (if Qltb 0 w then inject_Z a else inject_Z a + w) = inject_Z (Z.min a c).
Proof.
  intros Hk Habs w. unfold w. rewrite pt_difference by lia.
  split.
  - unfold Qabs, inject_Z. f_equal. exact Habs.
  - destruct (Qltb 0 (inject_Z (c - a))) eqn:E.
    + apply Qltb_lt in E. unfold Qlt in E. simpl in E. f_equal. lia.
    + apply Qltb_ge in E. unfold Qle in E. simpl in E.
      unfold Qplus, inject_Z. simpl. f_equal. lia.
Qed.

(** C1. Pointer-up clears the provisional rectangle and the start point in
    every case.  It appends one rectangle exactly when the magnitudes of the
    raw signed width and height of the provisional rectangle both exceed 5,
    and that rectangle is the provisional one, normalized: its id and its
    colour, the top-left corner, and the magnitudes of its width and height;
    otherwise the sequence stays as it was.  So a provisional rectangle of 3
    by 3 commits nothing and one of 6 by 6 commits exactly that one
    rectangle, whatever the signs.  For a gesture made in drawing mode on the
    stage the width and height are the differences of the pointer
    coordinates as the program computes them, and the same holds of them;
    between integer pointer coordinates they are the integer differences, so
    that a drag of 3 by 3 pixels commits nothing and a drag of 6 by 6 pixels
    commits the 6 by 6 rectangle whose corner is the smaller coordinate on
    each axis, whatever the direction of the drag. *)
Theorem handleMouseUp_commits_above_threshold (st : Canvas) :
  currentRect (handleMouseUp st) = None /\
  startPoint (handleMouseUp st) = None /\
  (currentRect st = None -> rectangles (handleMouseUp st) = rectangles st) /\
  (forall cur, currentRect st = Some cur ->
     let committed :=
       JObj [ ("id", JStr (Rect.id cur));
              ("x", JNum (if Qltb 0 (Rect.width cur) then Rect.x cur
                          else Rect.x cur + Rect.width cur));
              ("y", JNum (if Qltb 0 (Rect.height cur) then Rect.y cur
                          else Rect.y cur + Rect.height cur));
              ("width", JNum (Qabs (Rect.width cur)));
              ("height", JNum (Qabs (Rect.height cur)));
              ("color", JStr (Rect.color cur)) ] in
     ((exists v, rectangles (handleMouseUp st) = rectangles st ++ [v]) <->
      5 < Qabs (Rect.width cur) /\ 5 < Qabs (Rect.height cur)) /\
     (5 < Qabs (Rect.width cur) /\ 5 < Qabs (Rect.height cur) ->
      rectangles (handleMouseUp st) = rectangles st ++ [committed]) /\
     (~ (5 < Qabs (Rect.width cur) /\ 5 < Qabs (Rect.height cur)) ->
      rectangles (handleMouseUp st) = rectangles st) /\
     (Qabs (Rect.width cur) == 3 -> Qabs (Rect.height cur) == 3 ->
      rectangles (handleMouseUp st) = rectangles st) /\
     (Qabs (Rect.width cur) == 6 -> Qabs (Rect.height cur) == 6 ->
      rectangles (handleMouseUp st) = rectangles st ++ [committed])) /\
  (forall from to now rnd,
     isDrawing st = true ->
     let w := roundDouble (px to - px from) in
     let h := roundDouble (py to - py from) in
     (Qabs w == 3 -> Qabs h == 3 ->
      rectangles (gesture from to now rnd st) = rectangles st) /\
     (Qabs w == 6 -> Qabs h == 6 ->
      rectangles (gesture from to now rnd st) =
      rectangles st ++
        [JObj [ ("id", JStr (freshId now));
                ("x", JNum (if Qltb 0 w then px from else px from + w));
                ("y", JNum (if Qltb 0 h then py from else py from + h));
                ("width", JNum (Qabs w));
                ("height", JNum (Qabs h));
                ("color", JStr (randomColor rnd)) ]])) /\
  (forall a b c d now rnd,
     isDrawing st = true ->
     (Z.abs (c - a) = 3%Z -> Z.abs (d - b) = 3%Z ->
      rectangles (gesture (pt a b) (pt c d) now rnd st) = rectangles st) /\
     (Z.abs (c - a) = 6%Z -> Z.abs (d - b) = 6%Z ->
      rectangles (gesture (pt a b) (pt c d) now rnd st) =
      rectangles st ++
        [JObj [ ("id", JStr (freshId now));
                ("x", JNum (inject_Z (Z.min a c)));
                ("y", JNum (inject_Z (Z.min b d)));
                ("width", JNum 6);
                ("height", JNum 6);
                ("color", JStr (randomColor rnd)) ]])).
Proof.
  assert (Hsmall : forall cur,
             Qabs (Rect.width cur) == 3 -> bigEnough cur = false).
  { intros cur Hw. destruct (bigEnough cur) eqn:E; [|reflexivity].
    apply bigEnough_iff in E. destruct E as [E _]. rewrite Hw in E.
    discriminate E. }
  assert (Hlarge : forall cur,
             Qabs (Rect.width cur) == 6 -> Qabs (Rect.height cur) == 6 ->
             bigEnough cur = true).
  { intros cur Hw Hh. apply bigEnough_iff. rewrite Hw, Hh.
    split; reflexivity. }
  split; [reflexivity|]. split; [reflexivity|].
  split; [|split; [|split]].
  - intros Hnone. rewrite handleMouseUp_rectangles, Hnone. reflexivity.
  - intros cur Hcur committed. rewrite handleMouseUp_rectangles, Hcur.
    pose proof (bigEnough_iff cur) as Hbig.
    pose proof (Hsmall cur) as H3. pose proof (Hlarge cur) as H6.
    destruct (bigEnough cur).
    + assert (Hc : 5 < Qabs (Rect.width cur) /\ 5 < Qabs (Rect.height cur))
        by (apply Hbig; reflexivity).
      split; [|split; [|split; [|split]]].
      * split; [intros _; exact Hc | intros _; eexists; reflexivity].
      * intros _. reflexivity.
      * intros Hn. contradiction.
      * intros Hw _. specialize (H3 Hw). discriminate H3.
      * intros _ _. reflexivity.
    + assert (Hc : ~ (5 < Qabs (Rect.width cur) /\ 5 < Qabs (Rect.height cur)))
        by (intros Hc; apply Hbig in Hc; discriminate).
      split; [|split; [|split; [|split]]].
      * split; [|intros H; contradiction].
        intros [v Hv]. symmetry in Hv. exfalso. exact (app_one_neq _ _ Hv).
      * intros H. contradiction.
      * intros _. reflexivity.
      * intros _ _. reflexivity.
      * intros Hw Hh. specialize (H6 Hw Hh). discriminate H6.
  - intros from to now rnd Hdraw w h.
    rewrite (gesture_rectangles _ _ _ _ _ Hdraw). split.
    + intros Hw _. rewrite (Hsmall (provisional from to now rnd) Hw).
      reflexivity.
    + intros Hw Hh. rewrite (Hlarge (provisional from to now rnd) Hw Hh).
      reflexivity.
  - intros a b c d now rnd Hdraw.
    rewrite (gesture_rectangles _ _ _ _ _ Hdraw). split.
    + intros Hx Hy.
      destruct (integer_side a c 3) as [Hw _]; [lia|exact Hx|].
      rewrite (Hsmall (provisional (pt a b) (pt c d) now rnd)); [reflexivity|].
      simpl. rewrite Hw. reflexivity.
    + intros Hx Hy.
      destruct (integer_side a c 6) as [Hw Hcx]; [lia|exact Hx|].
      destruct (integer_side b d 6) as [Hh Hcy]; [lia|exact Hy|].
      rewrite (Hlarge (provisional (pt a b) (pt c d) now rnd))
        by (simpl; rewrite ?Hw, ?Hh; reflexivity).
      unfold objOfRect, finalRect, provisional, pt. cbn [Rect.id Rect.x Rect.y
        Rect.width Rect.height Rect.color px py].
      rewrite Hw, Hh, Hcx, Hcy. reflexivity.
Qed.

Lemma handleMouseUp_commits_above_threshold_witness :
  rectangles (gesture (pt 10 10) (pt 13 7) 1000 (1 # 2) drawingCanvas) = []
  /\ rectangles (gesture (pt 10 10) (pt 4 16) 1000 (1 # 2) drawingCanvas) =
     [JObj [ ("id", JStr "rect-1000"); ("x", JNum 4); ("y", JNum 10);
             ("width", JNum 6); ("height", JNum 6);
             ("color", JStr "#7fffff") ]]
  /\ rectangles (handleMouseUp trackingCanvas) =
     [JObj [ ("id", JStr "rect-1000"); ("x", JNum 40); ("y", JNum 60);
             ("width", JNum 60); ("height", JNum 40);
             ("color", JStr "#7fffff") ]]
  /\ rectangles (handleMouseUp drawingCanvas) = [].
Proof.
  destruct (handleMouseUp_commits_above_threshold drawingCanvas)
    as (_ & _ & Hnone & _ & _ & Hint).
  destruct (handleMouseUp_commits_above_threshold trackingCanvas)
    as (_ & _ & _ & Hcur & _ & _).
  split; [|split; [|split]].
  - apply (proj1 (Hint 10 10 13 7 1000 (1 # 2) eq_refl))%Z; reflexivity.
  - apply (proj2 (Hint 10 10 4 16 1000 (1 # 2) eq_refl))%Z; reflexivity.
  - apply (proj1 (proj2 (Hcur (provisional (pt 100 100) (pt 40 60) 1000 (1 # 2))
                            eq_refl))).
    split; reflexivity.
  - apply Hnone. reflexivity.
Defined.

Lemma finalRect_corner (cur : Rect.t) :
  Rect.x (finalRect cur) == Qmin (Rect.x cur) (Rect.x cur + Rect.width cur) /\
  Rect.y (finalRect cur) == Qmin (Rect.y cur) (Rect.y cur + Rect.height cur).
Proof.
  assert (H : forall a d : Q,
             (if Qltb 0 d then a else a + d) == Qmin a (a + d)).
  { intros a d. destruct (Qltb 0 d) eqn:E.
    - apply Qltb_lt in E. symmetry. apply Q.min_l.
      rewrite <- (Qplus_0_r a) at 1. apply Qplus_le_r. apply Qlt_le_weak, E.
    - apply Qltb_ge in E. symmetry. apply Q.min_r.
      rewrite <- (Qplus_0_r a) at 2. apply Qplus_le_r. exact E. }
  split; apply H.
Qed.

(** C2. When pointer-up commits the provisional rectangle, the committed
    rectangle keeps its id and colour, its width and height are the absolute
    values of the provisional ones (so they are not negative), and its x and
    y are those of the top-left corner: a negative width moves x to x + width
    and a negative height moves y to y + height, a positive one leaves the
    coordinate alone.  Drawing from (100,100) to (40,60) in drawing mode
    appends the rectangle x = 40, y = 60, width = 60, height = 40. *)
Theorem handleMouseUp_normalizes (st : Canvas) :
  (forall cur,
     currentRect st = Some cur ->
     5 < Qabs (Rect.width cur) -> 5 < Qabs (Rect.height cur) ->
     let r := finalRect cur in
     rectangles (handleMouseUp st) = rectangles st ++ [objOfRect r] /\
     Rect.id r = Rect.id cur /\ Rect.color r = Rect.color cur /\
     Rect.width r = Qabs (Rect.width cur) /\
     Rect.height r = Qabs (Rect.height cur) /\
     0 <= Rect.width r /\ 0 <= Rect.height r /\
     (Rect.width cur < 0 -> Rect.x r = Rect.x cur + Rect.width cur) /\
     (0 < Rect.width cur -> Rect.x r = Rect.x cur) /\
     (Rect.height cur < 0 -> Rect.y r = Rect.y cur + Rect.height cur) /\
     (0 < Rect.height cur -> Rect.y r = Rect.y cur) /\
     Rect.x r == Qmin (Rect.x cur) (Rect.x cur + Rect.width cur) /\
     Rect.y r == Qmin (Rect.y cur) (Rect.y cur + Rect.height cur)) /\
  (forall now rnd,
     isDrawing st = true ->
     rectangles (gesture (pt 100 100) (pt 40 60) now rnd st) =
     rectangles st ++
       [JObj [ ("id", JStr (freshId now)); ("x", JNum 40); ("y", JNum 60);
               ("width", JNum 60); ("height", JNum 40);
               ("color", JStr (randomColor rnd)) ]]).
Proof.
  split.
  - intros cur Hcur Hw Hh r.
    assert (Hbig : bigEnough cur = true) by (apply bigEnough_iff; split; assumption).
    split.
    { rewrite handleMouseUp_rectangles, Hcur, Hbig. reflexivity. }
    do 4 (split; [reflexivity|]).
    split; [apply Qabs_nonneg|]. split; [apply Qabs_nonneg|].
    assert (Hneg : forall a d : Q, d < 0 -> (if Qltb 0 d then a else a + d) = a + d).
    { intros a d Hd. destruct (Qltb 0 d) eqn:E; [|reflexivity].
      apply Qltb_lt in E. exfalso. exact (Qlt_irrefl _ (Qlt_trans _ _ _ E Hd)). }
    assert (Hpos : forall a d : Q, 0 < d -> (if Qltb 0 d then a else a + d) = a).
    { intros a d Hd. apply Qltb_lt in Hd. rewrite Hd. reflexivity. }
    split; [apply Hneg|]. split; [apply Hpos|].
    split; [apply Hneg|]. split; [apply Hpos|].
    apply finalRect_corner.
  - intros now rnd Hdraw.
    rewrite (gesture_rectangles _ _ _ _ _ Hdraw). reflexivity.
Qed.

Lemma handleMouseUp_normalizes_witness :
  rectangles (gesture (pt 100 100) (pt 40 60) 1000 (1 # 2) drawingCanvas) =
  [JObj [ ("id", JStr "rect-1000"); ("x", JNum 40); ("y", JNum 60);
          ("width", JNum 60); ("height", JNum 40);
          ("color", JStr "#7fffff") ]]
  /\ rectangles (handleMouseUp trackingCanvas) =
     [objOfRect
        (finalRect (provisional (pt 100 100) (pt 40 60) 1000 (1 # 2)))].
Proof.
  destruct (handleMouseUp_normalizes drawingCanvas) as [_ Hex].
  destruct (handleMouseUp_normalizes trackingCanvas) as [Hcur _].
  split.
  - apply (Hex 1000%Z (1 # 2)). reflexivity.
  - apply (Hcur (provisional (pt 100 100) (pt 40 60) 1000 (1 # 2)));
      reflexivity.
Defined.

(** ** Traversals in the option monad *)

Lemma mapM_nth {A B : Type} (f : A -> option B) (l : list A) (l' : list B) :
  mapM f l = Some l' ->
  List.length l' = List.length l /\
  forall i a, nth_error l i = Some a ->
              exists b, f a = Some b /\ nth_error l' i = Some b.
Proof.
  revert l'. induction l as [|a0 l IH]; intros l' H; simpl in H.
  - injection H as <-. split; [reflexivity|]. intros [|i] a Ha; discriminate.
  - destruct (f a0) as [b0|] eqn:Ef; [|discriminate]. simpl in H.
    destruct (mapM f l) as [bs|] eqn:Em; [|discriminate]. simpl in H.
    injection H as <-. destruct (IH bs eq_refl) as [Hlen Hnth].
    split; [simpl; congruence|].
    intros [|i] a Ha; simpl in Ha.
    + injection Ha as <-. exists b0. split; [assumption|reflexivity].
    + exact (Hnth i a Ha).
Qed.

Lemma mapM_total {A B : Type} (f : A -> option B) (l : list A) :
  (forall a, In a l -> exists b, f a = Some b) ->
  exists l', mapM f l = Some l'.
Proof.
  induction l as [|a0 l IH]; intros H.
  - exists []. reflexivity.
  - destruct (H a0 (or_introl eq_refl)) as [b0 Hb0].
    destruct IH as [bs Hbs]; [intros a Ha; apply H; right; exact Ha|].
    exists (b0 :: bs). simpl. rewrite Hb0. simpl. rewrite Hbs. reflexivity.
Qed.

Lemma filterM_filter {A : Type} (f : A -> option bool) (g : A -> bool)
    (l : list A) :
  (forall a, In a l -> f a = Some (g a)) ->
  filterM f l = Some (filter g l).
Proof.
  induction l as [|a0 l IH]; intros H; [reflexivity|].
  simpl. rewrite (H a0 (or_introl eq_refl)). simpl.
  rewrite IH by (intros a Ha; apply H; right; exact Ha). simpl.
  destruct (g a0); reflexivity.
Qed.

Lemma filterM_incl {A : Type} (f : A -> option bool) (l l' : list A) :
  filterM f l = Some l' ->
  forall a, In a l' -> In a l /\ f a = Some true.
Proof.
  revert l'. induction l as [|a0 l IH]; intros l' H a Ha; simpl in H.
  - injection H as <-. destruct Ha.
  - destruct (f a0) as [keep|] eqn:Ef; [|discriminate]. simpl in H.
    destruct (filterM f l) as [kept|] eqn:Em; [|discriminate]. simpl in H.
    injection H as <-.
    destruct keep.
    + destruct Ha as [<-|Ha].
      * split; [left; reflexivity|assumption].
      * destruct (IH kept eq_refl a Ha) as [Hin Hf]. split; [right|]; assumption.
    + destruct (IH kept eq_refl a Ha) as [Hin Hf]. split; [right|]; assumption.
Qed.

(** ** Properties of objects *)

Lemma lookup_setProp_same (k : string) (v : value) props :
  lookup k (setProp k v props) = Def v.
Proof.
  induction props as [|[k' v'] rest IH]; simpl.
  - rewrite String.eqb_refl. reflexivity.
  - destruct (k' =? k)%string eqn:E; simpl.
    + rewrite String.eqb_refl. reflexivity.
    + rewrite E. exact IH.
Qed.

Lemma lookup_setProp_other (k k' : string) (v : value) props :
  k <> k' -> lookup k' (setProp k v props) = lookup k' props.
Proof.
  intros Hne. induction props as [|[k0 v0] rest IH]; simpl.
  - destruct (k =? k')%string eqn:E; [|reflexivity].
    apply String.eqb_eq in E. contradiction.
  - destruct (k0 =? k)%string eqn:E; simpl.
    + apply String.eqb_eq in E. subst k0.
      destruct (k =? k')%string eqn:E'; [|reflexivity].
      apply String.eqb_eq in E'. contradiction.
    + destruct (k0 =? k')%string; [reflexivity|exact IH].
Qed.

Lemma rectShaped_props (v : value) :
  rectShaped v = true ->
  exists props i a b w h c,
    v = JObj props /\
    lookup "id" props = Def (JStr i) /\
    lookup "x" props = Def (JNum a) /\ lookup "y" props = Def (JNum b) /\
    lookup "width" props = Def (JNum w) /\
    lookup "height" props = Def (JNum h) /\
    lookup "color" props = Def (JStr c).
Proof.
  destruct v as [| | | | |props]; try discriminate. unfold rectShaped.
  destruct (lookup "id" props) as [|[]] eqn:E1; try discriminate.
  destruct (lookup "x" props) as [|[]] eqn:E2; try discriminate.
  destruct (lookup "y" props) as [|[]] eqn:E3; try discriminate.
  destruct (lookup "width" props) as [|[]] eqn:E4; try discriminate.
  destruct (lookup "height" props) as [|[]] eqn:E5; try discriminate.
  destruct (lookup "color" props) as [|[]] eqn:E6; try discriminate.
  intros _. exists props, s, q, q0, q1, q2, s0. repeat split; assumption.
Qed.

(** ** Resizing *)

Lemma resizedRect_shaped (n : node) (sX sY : Q) (s : string) (rect : value) :
  rectShaped rect = true ->
  exists props i w h,
    rect = JObj props /\
    lookup "id" props = Def (JStr i) /\
    lookup "width" props = Def (JNum w) /\
    lookup "height" props = Def (JNum h) /\
    resizedRect n sX sY (Def (JStr s)) rect =
    Some (if (i =? s)%string
          then JObj (setProp "height" (JNum (Qmax 5 (h * sY)))
                       (setProp "width" (JNum (Qmax 5 (w * sX)))
                          (setProp "y" (JNum (nodeY n))
                             (setProp "x" (JNum (nodeX n)) props))))
          else rect).
Proof.
  intros Hshape.
  destruct (rectShaped_props rect Hshape)
    as (props & i & a & b & w & h & c & -> & Hi & _ & _ & Hw & Hh & _).
  exists props, i, w, h. repeat (split; [first [reflexivity|assumption]|]).
  unfold resizedRect. simpl. rewrite Hi. simpl.
  destruct (i =? s)%string; [|reflexivity].
  simpl. rewrite Hw, Hh. reflexivity.
Qed.

(** C3. Resizing a store of Rectangle records at the id [s] succeeds and
    resets the scale of the node to 1, leaving its position alone.  Every
    rectangle whose id is [s] gets x and y from the node, width
    max(5, width * scaleX) and height max(5, height * scaleY), both at least
    5, and keeps every other property; every rectangle with another id is
    unchanged, and so is the length of the sequence.  The bound-box function
    of the resize handle returns the previous box when the attempted one is
    narrower or lower than 5, and the attempted one otherwise. *)
Theorem handleTransformEnd_resizes (n : node) (s : string) (st : Canvas) :
  Forall (fun rect => rectShaped rect = true) (rectangles st) ->
  exists st',
    handleTransformEnd n (Def (JStr s)) st =
      Some ({| nodeX := nodeX n; nodeY := nodeY n; scaleX := 1; scaleY := 1 |},
            st') /\
    List.length (rectangles st') = List.length (rectangles st) /\
    (forall i rect w h,
       nth_error (rectangles st) i = Some rect ->
       getProp "id" rect = Some (Def (JStr s)) ->
       getProp "width" rect = Some (Def (JNum w)) ->
       getProp "height" rect = Some (Def (JNum h)) ->
       exists rect',
         nth_error (rectangles st') i = Some rect' /\
         getProp "x" rect' = Some (Def (JNum (nodeX n))) /\
         getProp "y" rect' = Some (Def (JNum (nodeY n))) /\
         getProp "width" rect' = Some (Def (JNum (Qmax 5 (w * scaleX n)))) /\
         getProp "height" rect' = Some (Def (JNum (Qmax 5 (h * scaleY n)))) /\
         5 <= Qmax 5 (w * scaleX n) /\ 5 <= Qmax 5 (h * scaleY n) /\
         (forall k, k <> "x" -> k <> "y" -> k <> "width" -> k <> "height" ->
                    getProp k rect' = getProp k rect)) /\
    (forall i rect,
       nth_error (rectangles st) i = Some rect ->
       getProp "id" rect <> Some (Def (JStr s)) ->
       nth_error (rectangles st') i = Some rect) /\
    (forall oldBox newBox,
       boxWidth newBox < 5 \/ boxHeight newBox < 5 ->
       boundBoxFunc oldBox newBox = oldBox) /\
    (forall oldBox newBox,
       5 <= boxWidth newBox -> 5 <= boxHeight newBox ->
       boundBoxFunc oldBox newBox = newBox).
Proof.
  intros Hshape. rewrite Forall_forall in Hshape.
  set (n1 := {| nodeX := nodeX n; nodeY := nodeY n; scaleX := 1; scaleY := 1 |}).
  destruct (mapM_total (resizedRect n1 (scaleX n) (scaleY n) (Def (JStr s)))
              (rectangles st)) as [updated Hupd].
  { intros rect Hin.
    destruct (resizedRect_shaped n1 (scaleX n) (scaleY n) s rect (Hshape _ Hin))
      as (props & i & w & h & _ & _ & _ & _ & ->).
    eexists. reflexivity. }
  destruct (mapM_nth _ _ _ Hupd) as [Hlen Hnth].
  exists (setRectangles updated st).
  split; [unfold handleTransformEnd; fold n1; rewrite Hupd; reflexivity|].
  split; [exact Hlen|].
  split; [|split; [|split]].
  - intros i rect w h Hi Hid Hw Hh.
    destruct (Hnth i rect Hi) as (rect' & Hf & Hi').
    assert (Hin : In rect (rectangles st)) by (eapply nth_error_In; eassumption).
    destruct (resizedRect_shaped n1 (scaleX n) (scaleY n) s rect (Hshape _ Hin))
      as (props & j & w0 & h0 & -> & Hj & Hw0 & Hh0 & Hres).
    simpl in Hid, Hw, Hh. rewrite Hj in Hid. rewrite Hw0 in Hw. rewrite Hh0 in Hh.
    injection Hid as ->. injection Hw as ->. injection Hh as ->.
    rewrite Hres, String.eqb_refl in Hf. injection Hf as <-.
    eexists. split; [exact Hi'|]. simpl.
    repeat rewrite ?lookup_setProp_same,
      ?(lookup_setProp_other "height" "width"),
      ?(lookup_setProp_other "height" "y"), ?(lookup_setProp_other "height" "x"),
      ?(lookup_setProp_other "width" "y"), ?(lookup_setProp_other "width" "x"),
      ?(lookup_setProp_other "y" "x") by discriminate.
    do 4 (split; [reflexivity|]).
    split; [apply Q.le_max_l|]. split; [apply Q.le_max_l|].
    intros k Hx Hy Hkw Hkh.
    rewrite !lookup_setProp_other by congruence. reflexivity.
  - intros i rect Hi Hid.
    destruct (Hnth i rect Hi) as (rect' & Hf & Hi').
    assert (Hin : In rect (rectangles st)) by (eapply nth_error_In; eassumption).
    destruct (resizedRect_shaped n1 (scaleX n) (scaleY n) s rect (Hshape _ Hin))
      as (props & j & w0 & h0 & -> & Hj & _ & _ & Hres).
    rewrite Hres in Hf.
    destruct (j =? s)%string eqn:E.
    + apply String.eqb_eq in E. subst j. simpl in Hid. rewrite Hj in Hid.
      contradiction Hid. reflexivity.
    + injection Hf as <-. exact Hi'.
  - intros oldBox newBox H. unfold boundBoxFunc.
    destruct H as [H|H]; apply Qltb_lt in H; rewrite H;
      [reflexivity | rewrite orb_true_r; reflexivity].
  - intros oldBox newBox Hw Hh. unfold boundBoxFunc.
    apply Qltb_ge in Hw, Hh. rewrite Hw, Hh. reflexivity.
Qed.

Lemma handleTransformEnd_resizes_witness :
  exists st',
    handleTransformEnd shrunkNode (Def (JStr "rect-1000")) drawnCanvas =
      Some ({| nodeX := 10; nodeY := 20; scaleX := 1; scaleY := 1 |}, st') /\
    List.length (rectangles st') = List.length (rectangles drawnCanvas).
Proof.
  destruct (handleTransformEnd_resizes shrunkNode "rect-1000" drawnCanvas)
    as (st' & Hres & Hlen & _).
  - vm_compute. repeat constructor.
  - exists st'. split; [exact Hres|exact Hlen].
Defined.

(** ** Files *)

Lemma onload_not_array (v : value) (st : Canvas) :
  (forall items, v <> JArr items) -> onload (Parsed v) st = st.
Proof.
  intros H. destruct v; try reflexivity. exfalso. exact (H _ eq_refl).
Qed.

(** C4, as the code has it.  Whatever [JSON.parse] is: a text that parses to
    an array installs the elements of that array as the rectangle sequence,
    whatever they are, and clears the selection; a text that does not parse
    installs nothing, leaves the sequence and the selection as they were and
    sets the error message; a text that parses to anything but an array
    installs nothing and leaves the sequence and the selection as they were;
    and an empty file list changes nothing. *)
Theorem loadFromFile_replaces_by_any_array
    (text : Type) (JSON_parse : text -> document) (contents : text)
    (st : Canvas) :
  (forall items,
     JSON_parse contents = Parsed (JArr items) ->
     rectangles (loadFromFile JSON_parse (Some contents) st) = items /\
     generation (loadFromFile JSON_parse (Some contents) st) =
       S (generation st) /\
     selectedId (loadFromFile JSON_parse (Some contents) st) = null) /\
  (JSON_parse contents = SyntaxError ->
     rectangles (loadFromFile JSON_parse (Some contents) st) = rectangles st /\
     generation (loadFromFile JSON_parse (Some contents) st) = generation st /\
     selectedId (loadFromFile JSON_parse (Some contents) st) = selectedId st /\
     error (loadFromFile JSON_parse (Some contents) st) =
       "Invalid file format") /\
  (forall v,
     JSON_parse contents = Parsed v -> (forall items, v <> JArr items) ->
     rectangles (loadFromFile JSON_parse (Some contents) st) = rectangles st /\
     generation (loadFromFile JSON_parse (Some contents) st) = generation st /\
     selectedId (loadFromFile JSON_parse (Some contents) st) = selectedId st) /\
  loadFromFile JSON_parse None st = st.
Proof.
  unfold loadFromFile. split; [|split; [|split; [|reflexivity]]].
  - intros items Hp. rewrite Hp. repeat split.
  - intros Hp. rewrite Hp. repeat split.
  - intros v Hp Hna. rewrite Hp, (onload_not_array _ _ Hna). repeat split.
Qed.

Lemma loadFromFile_replaces_by_any_array_witness :
  rectangles (loadFromFile parsedAlready (Some (Parsed (JArr [JBool true])))
                drawnCanvas) = [JBool true]
  /\ error (loadFromFile parsedAlready (Some SyntaxError) drawnCanvas) =
     "Invalid file format"
  /\ rectangles (loadFromFile parsedAlready (Some (Parsed (JStr "x")))
                   drawnCanvas) = rectangles drawnCanvas.
Proof.
  split; [|split].
  - apply (loadFromFile_replaces_by_any_array document parsedAlready
             (Parsed (JArr [JBool true])) drawnCanvas).
    reflexivity.
  - apply (loadFromFile_replaces_by_any_array document parsedAlready
             SyntaxError drawnCanvas).
    reflexivity.
  - apply (proj1 (proj2 (proj2 (loadFromFile_replaces_by_any_array document
             parsedAlready (Parsed (JStr "x")) drawnCanvas))) (JStr "x")).
    + reflexivity.
    + intros items. discriminate.
Defined.

(** C4 as claimed fails twice.  An array whose only element is the number 1,
    which is not a Rectangle record, replaces the stored sequence and no
    error is reported; and a document that parses to an object, which is not
    an array, is ignored without any error being reported. *)
Lemma loadFromFile_validates_counterexample :
  rectShaped (JNum 1) = false /\
  rectangles (loadFromFile parsedAlready (Some (Parsed (JArr [JNum 1])))
                drawnCanvas) = [JNum 1] /\
  rectangles drawnCanvas <> [JNum 1] /\
  error (loadFromFile parsedAlready (Some (Parsed (JArr [JNum 1])))
           drawnCanvas) = "" /\
  error (loadFromFile parsedAlready (Some (Parsed (JObj []))) drawnCanvas) = "".
Proof.
  repeat split. discriminate.
Qed.

(** ** What a handler leaves alone *)

Ltac crunch_handler :=
  repeat match goal with
         | H : Some _ = Some _ |- _ => injection H as H; subst
         | H : None = Some _ |- _ => discriminate H
         | H : bind ?m _ = Some _ |- _ =>
             let E := fresh "E" in
             destruct m eqn:E; simpl in H; [|discriminate H]
         | H : (if ?b then _ else _) = Some _ |- _ =>
             let E := fresh "E" in destruct b eqn:E
         | H : match ?x with _ => _ end = Some _ |- _ =>
             let E := fresh "E" in destruct x eqn:E
         end.

Lemma handleMouseDown_frame onStage pos now rnd (st : Canvas) :
  let st' := handleMouseDown onStage pos now rnd st in
  rectangles st' = rectangles st /\ generation st' = generation st /\
  selectedId st' = selectedId st /\ loading st' = loading st /\
  annotationId st' = annotationId st /\ autoSave st' = autoSave st.
Proof.
  unfold handleMouseDown.
  destruct (negb (isDrawing st) || negb onStage); repeat split.
Qed.

Lemma handleMouseMove_frame pos (st : Canvas) :
  let st' := handleMouseMove pos st in
  rectangles st' = rectangles st /\ generation st' = generation st /\
  selectedId st' = selectedId st /\ loading st' = loading st /\
  annotationId st' = annotationId st /\ autoSave st' = autoSave st.
Proof.
  unfold handleMouseMove.
  destruct (negb (isDrawing st)), (startPoint st), (currentRect st);
    repeat split.
Qed.

Lemma handleMouseUp_frame (st : Canvas) :
  let st' := handleMouseUp st in
  selectedId st' = selectedId st /\ loading st' = loading st /\
  annotationId st' = annotationId st /\ autoSave st' = autoSave st /\
  ((generation st' = generation st /\ rectangles st' = rectangles st) \/
   (generation st' = S (generation st) /\
    exists v, rectangles st' = rectangles st ++ [v])).
Proof.
  unfold handleMouseUp.
  destruct (currentRect st) as [cur|]; [destruct (bigEnough cur)|]; simpl;
    repeat split; auto.
  right. split; [reflexivity|]. eexists. reflexivity.
Qed.

(** Every handler of the interface keeps [loading] and [annotationId], and
    either leaves the rectangle array as it is or installs one new array. *)
Lemma handle_ui_frame (now : Z) (e : event) (st st' : Canvas) :
  handle_ui now e st = Some st' ->
  loading st' = loading st /\ annotationId st' = annotationId st /\
  ((generation st' = generation st /\ rectangles st' = rectangles st) \/
   generation st' = S (generation st)).
Proof.
  intros H. destruct e; simpl in H; try discriminate H.
  - injection H as <-. repeat split; auto.
  - injection H as <-.
    destruct (handleMouseDown_frame onStage pos now rnd st)
      as (? & ? & ? & ? & ? & ?). repeat split; auto.
  - injection H as <-.
    destruct (handleMouseMove_frame pos st) as (? & ? & ? & ? & ? & ?).
    repeat split; auto.
  - injection H as <-.
    destruct (handleMouseUp_frame st) as (? & ? & ? & ? & [[? ?]|[? ?]]);
      repeat split; auto.
  - crunch_handler. repeat split; auto.
  - unfold handleDragEnd in H. crunch_handler. repeat split; auto.
  - unfold handleTransformEnd in H. crunch_handler. repeat split; auto.
  - unfold deleteSelected in H. crunch_handler. repeat split; auto.
  - crunch_handler. repeat split; auto.
  - crunch_handler. repeat split; auto.
  - injection H as <-. unfold loadFromFile, parsedAlready, onload.
    destruct file as [[|[]]|]; repeat split; auto.
  - injection H as <-. repeat split; auto.
Qed.

(** ** Identifiers survive moving and resizing *)

Lemma movedRect_id (n : node) (id : jsval) (rect rect' : value) :
  movedRect n id rect = Some rect' -> getProp "id" rect' = getProp "id" rect.
Proof.
  unfold movedRect. intros H.
  destruct (getProp "id" rect) as [rid|] eqn:Eid; simpl in H; [|discriminate H].
  destruct (strictEq rid id) as [[|]|]; simpl in H; try discriminate H.
  - destruct rect; simpl in *; try discriminate; injection H as <-; simpl;
      rewrite ?lookup_setProp_other by discriminate; exact Eid.
  - injection H as <-. exact Eid.
Qed.

Lemma resizedRect_id (n : node) (sX sY : Q) (id : jsval) (rect rect' : value) :
  resizedRect n sX sY id rect = Some rect' ->
  getProp "id" rect' = getProp "id" rect.
Proof.
  unfold resizedRect. intros H.
  destruct (getProp "id" rect) as [rid|] eqn:Eid; simpl in H; [|discriminate H].
  destruct (strictEq rid id) as [[|]|]; simpl in H; try discriminate H.
  - destruct (spread rect) as [props|] eqn:Es; simpl in H; [|discriminate H].
    destruct (bind (getProp "width" rect) toNumber); simpl in H;
      [|discriminate H].
    destruct (bind (getProp "height" rect) toNumber); simpl in H;
      [|discriminate H].
    injection H as <-. simpl.
    rewrite !lookup_setProp_other by discriminate.
    destruct rect; simpl in *; try discriminate; injection Es as <-;
      exact Eid.
  - injection H as <-. exact Eid.
Qed.

Lemma mapM_In {A B : Type} (f : A -> option B) (l : list A) (l' : list B) :
  mapM f l = Some l' ->
  forall a, In a l -> exists b, f a = Some b /\ In b l'.
Proof.
  intros H a Ha. destruct (In_nth_error _ _ Ha) as [i Hi].
  destruct (proj2 (mapM_nth f l l' H) i a Hi) as (b & Hb & Hi').
  exists b. split; [assumption|]. eapply nth_error_In; eassumption.
Qed.

Lemma selectionOk_mapM (f : value -> option value) (st : Canvas)
    (updated : list value) :
  (forall rect rect', f rect = Some rect' ->
                      getProp "id" rect' = getProp "id" rect) ->
  mapM f (rectangles st) = Some updated ->
  selectionOk st -> selectionOk (setRectangles updated st).
Proof.
  intros Hid Hmap [Hnull|(rect & Hin & Hsel)]; [left; exact Hnull|].
  right. destruct (mapM_In _ _ _ Hmap rect Hin) as (rect' & Hf & Hin').
  exists rect'. split; [exact Hin'|].
  rewrite (Hid _ _ Hf). exact Hsel.
Qed.

Lemma handle_ui_selection (now : Z) (e : event) (st st' : Canvas) :
  handle_ui now e st = Some st' -> selectionOk st -> selectionOk st'.
Proof.
  intros H Hsel. destruct e; simpl in H; try discriminate H.
  - injection H as <-. exact Hsel.
  - injection H as <-. unfold selectionOk.
    destruct (handleMouseDown_frame onStage pos now rnd st)
      as (-> & _ & -> & _). exact Hsel.
  - injection H as <-. unfold selectionOk.
    destruct (handleMouseMove_frame pos st) as (-> & _ & -> & _). exact Hsel.
  - injection H as <-. unfold selectionOk.
    destruct (handleMouseUp_frame st) as (-> & _ & _ & _ & [[_ ->]|[_ [v ->]]]);
      [exact Hsel|].
    destruct Hsel as [Hnull|(rect & Hin & Hid)]; [left; exact Hnull|].
    right. exists rect. split; [apply in_or_app; left; exact Hin|exact Hid].
  - unfold idOf in H. crunch_handler. right. exists v. simpl.
    split; [eapply nth_error_In; eassumption|assumption].
  - unfold handleDragEnd in H. crunch_handler.
    eapply selectionOk_mapM; [|eassumption|exact Hsel].
    intros rect rect'. apply movedRect_id.
  - unfold handleTransformEnd in H. crunch_handler. simpl.
    eapply selectionOk_mapM; [|eassumption|exact Hsel].
    intros rect rect'. apply resizedRect_id.
  - unfold deleteSelected in H. crunch_handler. left. reflexivity.
  - crunch_handler. left. reflexivity.
  - crunch_handler. exact Hsel.
  - injection H as <-. unfold loadFromFile, parsedAlready, onload.
    destruct file as [[|[]]|]; try exact Hsel. left. reflexivity.
  - injection H as <-. exact Hsel.
Qed.

(** ** Time and the auto-save effect *)

Lemma body_saveRequest (c : closure) : body (saveRequest c) = seenRectangles c.
Proof.
  unfold saveRequest. destruct (seenAnnotationId c) as [id|]; [|reflexivity].
  destruct (negb (id =? "")%string); reflexivity.
Qed.

Lemma fire_all (l : list timeout) (w0 : World) :
  let w1 := fold_left (fun w' t => saveAnnotations (due t) (callback t) w')
                      l w0 in
  ui w1 = ui w0 /\ clock w1 = clock w0 /\ timers w1 = timers w0 /\
  nextHandle w1 = nextHandle w0 /\ cleanup w1 = cleanup w0 /\
  inFlight w1 = inFlight w0 ++ map (fun t => saveRequest (callback t)) l /\
  sent w1 = sent w0 ++ map (fun t => (due t, saveRequest (callback t))) l.
Proof.
  revert w0. induction l as [|t l IH]; intros w0; simpl.
  - rewrite !app_nil_r. repeat split.
  - destruct (IH (saveAnnotations (due t) (callback t) w0))
      as (-> & -> & -> & -> & -> & -> & ->).
    simpl. rewrite <- !app_assoc. repeat split.
Qed.

Lemma advance_spec (now : Z) (w : World) :
  ui (advance now w) = ui w /\ clock (advance now w) = now /\
  timers (advance now w) = filter (fun t => negb (isDue now t)) (timers w) /\
  nextHandle (advance now w) = nextHandle w /\
  cleanup (advance now w) = cleanup w /\
  inFlight (advance now w) =
    inFlight w ++ map (fun t => saveRequest (callback t))
                      (filter (isDue now) (timers w)) /\
  sent (advance now w) =
    sent w ++ map (fun t => (due t, saveRequest (callback t)))
                  (filter (isDue now) (timers w)).
Proof.
  unfold advance.
  match goal with
  | |- context [fold_left ?f ?l ?w0] =>
      destruct (fire_all l w0) as (-> & -> & -> & -> & -> & -> & ->)
  end.
  repeat split.
Qed.

Lemma advance_invariant (now : Z) (w : World) :
  (clock w <= now)%Z -> invariant w -> invariant (advance now w).
Proof.
  intros Hnow [Htim Hsent Hsel Hload].
  destruct (advance_spec now w) as (Hui & Hclock & Ht & Hnext & Hclean & _ & Hs).
  constructor; rewrite ?Hui; try assumption.
  - rewrite Ht. destruct Htim as [->|(t & -> & Hok)]; [left; reflexivity|].
    simpl. destruct (isDue now t) eqn:Edue; simpl; [left; reflexivity|].
    right. exists t. split; [reflexivity|].
    destruct Hok as (Hc & Hdue & Hrest).
    unfold timerOk. rewrite Hclean, Hclock, Hui.
    split; [exact Hc|]. split; [|exact Hrest].
    unfold isDue in Edue. apply Z.leb_gt in Edue. lia.
  - rewrite Hs. apply Forall_app. split; [exact Hsent|].
    destruct Htim as [->|(t & -> & Hok)]; [constructor|].
    simpl. destruct (isDue now t); simpl; constructor; [|constructor].
    simpl. rewrite body_saveRequest.
    destruct Hok as (_ & _ & -> & Hne & _). exact Hne.
Qed.

Lemma update_invariant (st : Canvas) (w : World) :
  invariant w ->
  ((generation st = generation (ui w) /\ rectangles st = rectangles (ui w)) \/
   generation st = S (generation (ui w))) ->
  selectionOk st ->
  (loading st = true -> selectedId st = null) ->
  invariant (update st w).
Proof.
  intros [Htim Hsent _ _] Hgen Hsel Hload.
  unfold update, autoSaveEffect. simpl.
  assert (Hrem : match cleanup w with
                 | Some h => clearTimeout h (timers w)
                 | None => timers w
                 end = []).
  { destruct Htim as [->|(t & -> & Hc & _)].
    - destruct (cleanup w); reflexivity.
    - rewrite Hc. simpl. rewrite Nat.eqb_refl. reflexivity. }
  destruct (depsChanged (ui w) st) eqn:Edeps.
  - rewrite Hrem.
    destruct (autoSave st && (0 <? List.length (rectangles st))%nat) eqn:Earm.
    + apply andb_true_iff in Earm. destruct Earm as [Hauto Hlen].
      constructor; simpl; try assumption.
      right. eexists. split; [reflexivity|].
      unfold timerOk. simpl. repeat split; try assumption; try lia.
      intros Hnil. rewrite Hnil in Hlen. discriminate Hlen.
    + constructor; simpl; try assumption. left. reflexivity.
  - unfold depsChanged in Edeps. apply orb_false_iff in Edeps.
    destruct Edeps as [Eg Ea].
    apply negb_false_iff, Nat.eqb_eq in Eg.
    apply negb_false_iff, eqb_prop in Ea.
    destruct Hgen as [[_ Hrects]|Hgen]; [|lia].
    constructor; simpl; try assumption.
    destruct Htim as [Hnil|(t & Ht & Hc & Hdue & Hseen & Hne & Hauto)];
      [left; exact Hnil|].
    right. exists t. split; [exact Ht|].
    unfold timerOk. simpl. rewrite Hrects, <- Ea.
    exact (conj Hc (conj Hdue (conj Hseen (conj Hne Hauto)))).
Qed.

Lemma saveAnnotations_invariant (now : Z) (c : closure) (w : World) :
  invariant w -> seenRectangles c <> [] ->
  invariant (saveAnnotations now c w).
Proof.
  intros [Htim Hsent Hsel Hload] Hne.
  constructor; simpl; try assumption.
  apply Forall_app. split; [exact Hsent|].
  constructor; [|constructor]. simpl. rewrite body_saveRequest. exact Hne.
Qed.

Lemma withInFlight_invariant (l : list request) (w : World) :
  invariant w -> invariant (withInFlight l w).
Proof.
  intros [Htim Hsent Hsel Hload]. constructor; assumption.
Qed.

Lemma fetchSettled_frame (outcome : option (list annotation)) (st : Canvas) :
  let st' := fetchSettled outcome st in
  loading st' = false /\ selectedId st' = selectedId st /\
  autoSave st' = autoSave st /\
  ((generation st' = generation st /\ rectangles st' = rectangles st) \/
   generation st' = S (generation st)).
Proof.
  unfold fetchSettled.
  destruct outcome as [data|]; [destruct (rev data)|]; simpl;
    repeat split; auto.
Qed.

Lemma saveSettled_frame (req : request) (outcome : option string)
    (st : Canvas) :
  let st' := saveSettled req outcome st in
  loading st' = loading st /\ selectedId st' = selectedId st /\
  autoSave st' = autoSave st /\ isDrawing st' = isDrawing st /\
  startPoint st' = startPoint st /\ currentRect st' = currentRect st /\
  generation st' = generation st /\ rectangles st' = rectangles st.
Proof.
  unfold saveSettled. destruct outcome; [destruct req|]; repeat split.
Qed.

Lemma rerender_update (st : Canvas) (w w' : World) :
  rerender st w = Some w' -> w' = update st w.
Proof.
  unfold rerender. destruct (view st); [|discriminate].
  intros H. injection H as <-. reflexivity.
Qed.

Lemma step_ui (w : World) (now : Z) (e : event) (st : Canvas) :
  invariant (advance now w) ->
  loading (ui (advance now w)) = false ->
  handle_ui now e (ui (advance now w)) = Some st ->
  invariant (update st (advance now w)).
Proof.
  intros Hinv Hload Hst.
  destruct (handle_ui_frame _ _ _ _ Hst) as (Hl & _ & Hgen).
  apply update_invariant; try assumption.
  - eapply handle_ui_selection; [eassumption|apply Hinv].
  - rewrite Hl, Hload. discriminate.
Qed.

Lemma step_invariant (w w' : World) (now : Z) (e : event) :
  invariant w -> step w now e = Some w' -> invariant w'.
Proof.
  intros Hinv Hstep. unfold step in Hstep.
  destruct (now <? clock w)%Z eqn:Enow; [discriminate Hstep|].
  apply Z.ltb_ge in Enow.
  pose proof (advance_invariant now w Enow Hinv) as Hinv1.
  set (w1 := advance now w) in *.
  assert (Hui : (if loading (ui w1) then None
                 else st <- handle_ui now e (ui w1) ;; rerender st w1) =
                Some w' -> invariant w').
  { intros H. destruct (loading (ui w1)) eqn:El; [discriminate H|].
    destruct (handle_ui now e (ui w1)) as [st|] eqn:Eh; [|discriminate H].
    simpl in H. apply rerender_update in H. subst w'.
    exact (step_ui w now e st Hinv1 El Eh). }
  destruct e; try exact (Hui Hstep); clear Hui.
  - destruct (loading (ui w1)) eqn:El; [|discriminate Hstep].
    apply rerender_update in Hstep. subst w'.
    destruct (fetchSettled_frame outcome (ui w1)) as (Hl & Hs & _ & Hgen).
    apply update_invariant; try assumption.
    + left. rewrite Hs. apply Hinv1. exact El.
    + rewrite Hl. discriminate.
  - destruct (loading (ui w1) || (List.length (rectangles (ui w1)) =? 0)%nat)
      eqn:Eg; [discriminate Hstep|].
    injection Hstep as <-. apply orb_false_iff in Eg. destruct Eg as [_ Elen].
    apply saveAnnotations_invariant; [exact Hinv1|]. simpl.
    intros Hnil. rewrite Hnil in Elen. discriminate Elen.
  - destruct (nth_error (inFlight w1) k) as [req|]; [|discriminate Hstep].
    simpl in Hstep. apply rerender_update in Hstep. subst w'.
    destruct (saveSettled_frame req outcome (ui w1))
      as (Hl & Hs & _ & _ & _ & _ & Hg & Hr).
    apply update_invariant.
    + apply withInFlight_invariant. exact Hinv1.
    + left. split; assumption.
    + unfold selectionOk. rewrite Hs, Hr. apply Hinv1.
    + rewrite Hl, Hs. apply Hinv1.
  - injection Hstep as <-. exact Hinv1.
Qed.

Lemma mount_invariant (t0 : Z) : invariant (mount t0).
Proof.
  constructor; simpl.
  - left. reflexivity.
  - constructor.
  - left. reflexivity.
  - reflexivity.
Qed.

Lemma reachable_invariant (w : World) : reachable w -> invariant w.
Proof.
  induction 1 as [t0|w now e w' _ IH Hstep].
  - apply mount_invariant.
  - exact (step_invariant _ _ _ _ IH Hstep).
Qed.

Lemma cleanup_clears (w : World) :
  invariant w ->
  match cleanup w with
  | Some h => clearTimeout h (timers w)
  | None => timers w
  end = [].
Proof.
  intros [Htim _ _ _]. destruct Htim as [->|(t & -> & Hc & _)].
  - destruct (cleanup w); reflexivity.
  - rewrite Hc. simpl. rewrite Nat.eqb_refl. reflexivity.
Qed.

Lemma update_spec (st : Canvas) (w : World) :
  invariant w ->
  ui (update st w) = st /\ clock (update st w) = clock w /\
  sent (update st w) = sent w /\
  timers (update st w) =
    if depsChanged (ui w) st then scheduled (nextHandle w) (clock w) st
    else timers w.
Proof.
  intros Hinv. pose proof (cleanup_clears w Hinv) as Hrem.
  unfold update, autoSaveEffect, scheduled. simpl.
  destruct (depsChanged (ui w) st); [|repeat split].
  rewrite Hrem.
  destruct (autoSave st && (0 <? List.length (rectangles st))%nat);
    repeat split.
Qed.

(** What one event does to the request log and to the timer table. *)
Lemma step_spec (w w' : World) (now : Z) (e : event) :
  invariant w -> step w now e = Some w' ->
  (clock w <= now)%Z /\ clock w' = now /\
  sent w' = sent w ++ fired now w ++ manualSave now e (ui w) /\
  (manualSave now e (ui w) <> [] -> ui w' = ui w) /\
  timers w' =
    if depsChanged (ui w) (ui w') then scheduled (nextHandle w) now (ui w')
    else filter (fun t => negb (isDue now t)) (timers w).
Proof.
  intros Hinv Hstep. unfold step in Hstep.
  destruct (now <? clock w)%Z eqn:Enow; [discriminate Hstep|].
  apply Z.ltb_ge in Enow. split; [exact Enow|].
  pose proof (advance_invariant now w Enow Hinv) as Hinv1.
  destruct (advance_spec now w) as (Hui & Hclock & Ht & Hnext & _ & _ & Hs).
  fold (fired now w) in Hs.
  set (w1 := advance now w) in *.
  assert (Hupd : forall st l,
             w' = update st (withInFlight l w1) ->
             clock w' = now /\
             sent w' = sent w ++ fired now w ++ [] /\
             timers w' =
               if depsChanged (ui w) (ui w')
               then scheduled (nextHandle w) now (ui w')
               else filter (fun t => negb (isDue now t)) (timers w)).
  { intros st l ->.
    destruct (update_spec st (withInFlight l w1)
                (withInFlight_invariant l w1 Hinv1)) as (-> & -> & -> & ->).
    simpl. rewrite Hui, Hclock, Hnext, Ht, Hs, app_nil_r. repeat split. }
  assert (Hsame : forall l, withInFlight (inFlight l) l = l)
    by (intros []; reflexivity).
  assert (Hcase : (if loading (ui w1) then None
                   else st <- handle_ui now e (ui w1) ;; rerender st w1) =
                  Some w' -> exists st l, w' = update st (withInFlight l w1)).
  { intros H. destruct (loading (ui w1)); [discriminate H|].
    destruct (handle_ui now e (ui w1)) as [st|]; [|discriminate H].
    simpl in H. apply rerender_update in H. subst w'.
    exists st, (inFlight w1). rewrite Hsame. reflexivity. }
  assert (Hdeps : forall st, depsChanged st st = false).
  { intros st. unfold depsChanged.
    rewrite Nat.eqb_refl, eqb_reflx. reflexivity. }
  destruct e;
    try (destruct (Hcase Hstep) as (st & l & Hw');
         destruct (Hupd st l Hw') as (Hc & Hsn & Htm);
         simpl; rewrite Hsn, Htm; repeat split; try assumption;
         intros Habs; contradiction Habs; reflexivity);
    clear Hcase.
  - destruct (loading (ui w1)); [|discriminate Hstep].
    apply rerender_update in Hstep. rename Hstep into Hw'.
    rewrite <- (Hsame w1) in Hw'.
    destruct (Hupd _ _ Hw') as (Hc & Hsn & Htm).
    simpl. rewrite Hsn, Htm. repeat split; try assumption.
    intros Habs; contradiction Habs; reflexivity.
  - destruct (loading (ui w1) || (List.length (rectangles (ui w1)) =? 0)%nat);
      [discriminate Hstep|].
    injection Hstep as <-. simpl.
    rewrite Hui, Hclock, Hs, Ht, Hdeps, <- app_assoc. repeat split.
  - destruct (nth_error (inFlight w1) k) as [req|]; [|discriminate Hstep].
    simpl in Hstep. apply rerender_update in Hstep. rename Hstep into Hw'.
    destruct (Hupd _ _ Hw') as (Hc & Hsn & Htm).
    simpl. rewrite Hsn, Htm. repeat split; try assumption.
    intros Habs; contradiction Habs; reflexivity.
  - injection Hstep as <-. simpl.
    rewrite Hui, Hclock, Hs, Ht, Hdeps, app_nil_r. repeat split.
Qed.



Lemma scheduled_off (h : nat) (now : Z) (st : Canvas) :
  autoSave st = false -> scheduled h now st = [].
Proof.
  intros Hauto. unfold scheduled. rewrite Hauto. reflexivity.
Qed.

Lemma run_reachable (events : list (Z * event)) (w w' : World) :
  reachable w -> run w events = Some w' -> reachable w'.
Proof.
  revert w. induction events as [|[now e] rest IH]; intros w Hw H; simpl in H.
  - injection H as <-. exact Hw.
  - destruct (step w now e) as [w1|] eqn:E; [|discriminate H].
    simpl in H. exact (IH w1 (reachable_step _ _ _ _ Hw E) H).
Qed.



Lemma ui_update (st : Canvas) (w : World) : ui (update st w) = st.
Proof.
  unfold update, autoSaveEffect. simpl.
  destruct (depsChanged (ui w) st); [|reflexivity].
  destruct (autoSave st && (0 <? List.length (rectangles st))%nat); reflexivity.
Qed.



Lemma no_timer_when_empty (w : World) :
  invariant w -> rectangles (ui w) = [] -> timers w = [].
Proof.
  intros [[Hnil|(t & _ & _ & _ & _ & Hne & _)] _ _ _] Hempty;
    [exact Hnil|contradiction].
Qed.



(** ** Selection *)

Lemma filterM_keeps {A : Type} (f : A -> option bool) (l l' : list A) :
  filterM f l = Some l' ->
  forall a, In a l -> f a = Some true -> In a l'.
Proof.
  revert l'. induction l as [|a0 l IH]; intros l' H a Ha Hf; simpl in H.
  - destruct Ha.
  - destruct (f a0) as [keep|] eqn:Ef; [|discriminate]. simpl in H.
    destruct (filterM f l) as [kept|] eqn:Em; [|discriminate]. simpl in H.
    injection H as <-. destruct Ha as [<-|Ha].
    + rewrite Hf in Ef. injection Ef as <-. left. reflexivity.
    + specialize (IH kept eq_refl a Ha Hf). destruct keep; [right|]; exact IH.
Qed.

Lemma filterM_total {A : Type} (f : A -> option bool) (l : list A) :
  (forall a, In a l -> exists b, f a = Some b) ->
  exists l', filterM f l = Some l'.
Proof.
  induction l as [|a0 l IH]; intros H.
  - exists []. reflexivity.
  - destruct (H a0 (or_introl eq_refl)) as [b0 Hb0].
    destruct IH as [kept Hk]; [intros a Ha; apply H; right; exact Ha|].
    eexists. simpl. rewrite Hb0. simpl. rewrite Hk. reflexivity.
Qed.

(** C8. Deleting while a rectangle is selected (the selection is truthy, so
    the button is enabled): whenever [deleteSelected] returns, the selection
    is null, every rectangle left has an id different from the one that was
    selected, and every rectangle with a different id is still there; on a
    store of Rectangle records with a non-empty string selected it does
    return.  [clearAll] empties the sequence and sets the selection to null.
    In every state the component can reach, the selection is null or is the
    id of a rectangle of the sequence. *)
Theorem selection_stays_consistent :
  (forall st st',
     truthy (selectedId st) = true -> deleteSelected st = Some st' ->
     selectedId st' = null /\
     (forall rect, In rect (rectangles st') ->
        In rect (rectangles st) /\
        exists rid, getProp "id" rect = Some rid /\
                    strictEq rid (selectedId st) = Some false) /\
     (forall rect rid, In rect (rectangles st) ->
        getProp "id" rect = Some rid ->
        strictEq rid (selectedId st) = Some false ->
        In rect (rectangles st'))) /\
  (forall st s,
     selectedId st = Def (JStr s) -> s <> ""%string ->
     Forall (fun rect => rectShaped rect = true) (rectangles st) ->
     exists st',
       deleteSelected st = Some st' /\ selectedId st' = null /\
       forall rect, In rect (rectangles st') <->
                    In rect (rectangles st) /\
                    getProp "id" rect <> Some (Def (JStr s))) /\
  (forall st, rectangles (clearAll st) = [] /\ selectedId (clearAll st) = null) /\
  (forall w, reachable w -> selectionOk (ui w)).
Proof.
  assert (Hgen : forall st st',
     truthy (selectedId st) = true -> deleteSelected st = Some st' ->
     selectedId st' = null /\
     (forall rect, In rect (rectangles st') ->
        In rect (rectangles st) /\
        exists rid, getProp "id" rect = Some rid /\
                    strictEq rid (selectedId st) = Some false) /\
     (forall rect rid, In rect (rectangles st) ->
        getProp "id" rect = Some rid ->
        strictEq rid (selectedId st) = Some false ->
        In rect (rectangles st'))).
  { intros st st' Htruthy H. unfold deleteSelected in H. rewrite Htruthy in H.
    destruct (filterM _ (rectangles st)) as [kept|] eqn:Ef; [|discriminate H].
    simpl in H. injection H as <-. simpl. split; [reflexivity|]. split.
    - intros rect Hin. destruct (filterM_incl _ _ _ Ef rect Hin) as [Hin0 Hf].
      split; [exact Hin0|].
      destruct (getProp "id" rect) as [rid|]; [|discriminate Hf]. simpl in Hf.
      destruct (strictEq rid (selectedId st)) as [[|]|] eqn:Eq;
        try discriminate Hf.
      exists rid. split; [reflexivity|exact Eq].
    - intros rect rid Hin Hid Hneq.
      apply (filterM_keeps _ _ _ Ef rect Hin). rewrite Hid. cbn [bind].
      rewrite Hneq. reflexivity. }
  split; [exact Hgen|]. split; [|split].
  - intros st s Hsel Hs Hshape. rewrite Forall_forall in Hshape.
    assert (Htruthy : truthy (selectedId st) = true).
    { rewrite Hsel. simpl. destruct (s =? "")%string eqn:E; [|reflexivity].
      apply String.eqb_eq in E. contradiction. }
    assert (Hf : forall rect, In rect (rectangles st) ->
               exists i, getProp "id" rect = Some (Def (JStr i)) /\
                         strictEq (Def (JStr i)) (selectedId st) =
                           Some (i =? s)%string).
    { intros rect Hin.
      destruct (rectShaped_props rect (Hshape _ Hin))
        as (props & i & _ & _ & _ & _ & _ & -> & Hi & _).
      exists i. simpl. rewrite Hi, Hsel. split; reflexivity. }
    destruct (filterM_total
                (fun rect => rid <- getProp "id" rect ;;
                             same <- strictEq rid (selectedId st) ;;
                             Some (negb same)) (rectangles st)) as [kept Hk].
    { intros rect Hin. destruct (Hf rect Hin) as (i & -> & Hi). cbn [bind].
      rewrite Hi. eexists. reflexivity. }
    assert (Hdel : deleteSelected st =
                   Some (setSelectedId null (setRectangles kept st))).
    { unfold deleteSelected. rewrite Htruthy, Hk. reflexivity. }
    eexists. split; [exact Hdel|]. split; [reflexivity|].
    destruct (Hgen _ _ Htruthy Hdel) as (_ & Hleft & Hkept).
    intros rect. split.
    + intros Hin. destruct (Hleft rect Hin) as (Hin0 & rid & Hid & Hneq).
      split; [exact Hin0|]. intros Habs. rewrite Habs in Hid.
      injection Hid as <-. rewrite Hsel in Hneq. simpl in Hneq.
      rewrite String.eqb_refl in Hneq. discriminate Hneq.
    + intros [Hin Hne]. destruct (Hf rect Hin) as (i & Hi & Heq).
      apply (Hkept rect _ Hin Hi). rewrite Heq.
      destruct (i =? s)%string eqn:E; [|reflexivity].
      apply String.eqb_eq in E. subst i. contradiction.
  - intros st. split; reflexivity.
  - intros w Hreach. apply (reachable_invariant w Hreach).
Qed.

Lemma selection_stays_consistent_witness :
  (exists st',
     deleteSelected selectedCanvas = Some st' /\ selectedId st' = null /\
     forall rect, In rect (rectangles st') <->
                  In rect (rectangles selectedCanvas) /\
                  getProp "id" rect <> Some (Def (JStr "rect-1000")))
  /\ selectionOk (ui (worldAfter savedOnce)).
Proof.
  destruct selection_stays_consistent as (_ & Hdel & _ & Hreach).
  split.
  - apply (Hdel selectedCanvas "rect-1000").
    + vm_compute. reflexivity.
    + discriminate.
    + vm_compute. repeat constructor.
  - apply Hreach.
    apply (run_reachable savedOnce (mount 0)); [apply reachable_mount|].
    vm_compute. reflexivity.
Defined.

(** ** Saving *)

(** What one call of [saveAnnotations] does, for the state it sees: an
    update of the set it knows, or a creation when it knows none. *)
Lemma saveRequest_spec (c : closure) :
  (forall id, seenAnnotationId c = Some id -> id <> ""%string ->
              saveRequest c = PUT id (seenRectangles c)) /\
  (seenAnnotationId c = None -> saveRequest c = POST (seenRectangles c)).
Proof.
  unfold saveRequest. split.
  - intros id -> Hid. destruct (id =? "")%string eqn:E; [|reflexivity].
    apply String.eqb_eq in E. contradiction.
  - intros ->. reflexivity.
Qed.

(** The answer to a save: a creation adopts the returned id, an update keeps
    the id, success clears the message, failure sets it and changes nothing
    else. *)
Lemma saveSettled_spec (req : request) (st : Canvas) :
  (forall newId data, req = POST data ->
     saveSettled req (Some newId) st =
     setError "" (setAnnotationId (Some newId) st)) /\
  (forall id data newId, req = PUT id data ->
     saveSettled req (Some newId) st = setError "" st) /\
  saveSettled req None st = setError "Failed to save annotations" st.
Proof.
  repeat split; intros; subst; reflexivity.
Qed.

(** C7, where the code departs from it.  In the session [savedOnce] the
    first save created the set and its id [A] was adopted.  The auto-save
    timeout armed when the rectangle was drawn is still pending; when it
    comes due, at 3200 ms, it calls the [saveAnnotations] of the render that
    armed it, which still sees no id: the save is a second creation, not an
    update of [A], and its answer replaces the adopted id. *)
Theorem stale_autosave_creates_again :
  run (mount 0) savedOnce = Some (worldAfter savedOnce) /\
  annotationId (ui (worldAfter savedOnce)) = Some "A" /\
  timers (worldAfter savedOnce) <> [] /\
  step (worldAfter savedOnce) 3300 Idle = Some (worldAfter savedTwice) /\
  sent (worldAfter savedTwice) =
    sent (worldAfter savedOnce) ++
    [(3200%Z, POST (rectangles (ui (worldAfter savedOnce))))] /\
  step (worldAfter savedTwice) 3400 (SaveSettled 0 (Some "B")) =
    Some (worldAfter answeredTwice) /\
  annotationId (ui (worldAfter answeredTwice)) = Some "B".
Proof.
  vm_compute. repeat split. discriminate.
Qed.

(** C9, where the code departs from it.  When [Math.random()] returns 0.01
    the colour of the new rectangle is [#28f5c], five digits after the [#],
    which is not a hex RGB colour; the rectangle is committed with it. *)
Theorem randomColor_can_be_short :
  randomColor (1 # 100) = "#28f5c" /\
  isHexColor (randomColor (1 # 100)) = false /\
  isHexColor (randomColor (1 # 2)) = true /\
  rectangles (gesture (pt 100 100) (pt 40 60) 1000 (1 # 100) drawingCanvas) =
  [JObj [ ("id", JStr "rect-1000"); ("x", JNum 40); ("y", JNum 60);
          ("width", JNum 60); ("height", JNum 40);
          ("color", JStr "#28f5c") ]].
Proof.
  vm_compute. repeat split.
Qed.

(** C10. In every state the component can reach: every request that was sent
    carries a non-empty rectangle list, and so does the save of every pending
    timeout.  While the list is empty no timeout is pending, the save button
    does nothing, and no event at all sends a request; in particular right
    after "Clear All" the list is empty and nothing is pending. *)
Theorem saves_never_carry_an_empty_list (w : World) :
  reachable w ->
  Forall (fun p => body (snd p) <> []) (sent w) /\
  Forall (fun t => body (saveRequest (callback t)) <> []) (timers w) /\
  (rectangles (ui w) = [] ->
   timers w = [] /\
   (forall now, step w now SaveToDatabase = None) /\
   (forall now e w', step w now e = Some w' -> sent w' = sent w)) /\
  (forall now w',
     step w now ClearAll = Some w' ->
     rectangles (ui w') = [] /\ timers w' = []).
Proof.
  intros Hreach. pose proof (reachable_invariant w Hreach) as Hinv.
  split; [apply Hinv|]. split; [|split].
  - destruct (inv_timers w Hinv) as [->|(t & -> & _ & _ & Hseen & Hne & _)];
      constructor; [|constructor].
    rewrite body_saveRequest, Hseen. exact Hne.
  - intros Hempty.
    pose proof (no_timer_when_empty w Hinv Hempty) as Hnone.
    split; [exact Hnone|]. split.
    + intros now. unfold step. destruct (now <? clock w)%Z; [reflexivity|].
      destruct (advance_spec now w) as (-> & _). rewrite Hempty.
      simpl. rewrite orb_true_r. reflexivity.
    + intros now e w' Hstep.
      destruct (step_spec _ _ _ _ Hinv Hstep) as (_ & _ & Hs & _ & _).
      unfold fired in Hs. rewrite Hnone in Hs. simpl in Hs.
      destruct e; simpl in Hs; rewrite ?app_nil_r in Hs; try exact Hs.
      exfalso. revert Hstep. unfold step.
      destruct (now <? clock w)%Z; [discriminate|].
      destruct (advance_spec now w) as (-> & _). rewrite Hempty. simpl.
      rewrite orb_true_r. discriminate.
  - intros now w' Hstep.
    assert (Hui : ui w' = clearAll (ui w)).
    { revert Hstep. unfold step. destruct (now <? clock w)%Z; [discriminate|].
      destruct (loading (ui (advance now w))); [discriminate|]. simpl.
      destruct (advance_spec now w) as (Hu & _). rewrite Hu.
      destruct (List.length (rectangles (ui w)) =? 0)%nat; [discriminate|].
      simpl. intros H. apply rerender_update in H. subst w'.
      apply ui_update. }
    assert (Hempty : rectangles (ui w') = []) by (rewrite Hui; reflexivity).
    split; [exact Hempty|].
    apply no_timer_when_empty; [|exact Hempty].
    exact (step_invariant _ _ _ _ Hinv Hstep).
Qed.

Lemma saves_never_carry_an_empty_list_witness :
  Forall (fun p => body (snd p) <> []) (sent (worldAfter answeredTwice)).
Proof.
  apply (saves_never_carry_an_empty_list (worldAfter answeredTwice)).
  apply (run_reachable answeredTwice (mount 0)); [apply reachable_mount|].
  vm_compute. reflexivity.
Defined.


(** * Further properties of the component *)

(** ** Loading *)

(** X1. [fetchAnnotations] makes the last set of the answer the current one:
    its rectangles become the sequence and its id the annotation id.  An
    empty answer leaves the sequence and the id as they were, a failed
    request does too and sets the message.  In every case [loading] ends
    false, and the selection and the auto-save switch are not touched. *)
Theorem fetchSettled_takes_the_last_set (st : Canvas) :
  (forall older latest,
     rectangles (fetchSettled (Some (older ++ [latest])) st) =
       savedRectangles latest /\
     annotationId (fetchSettled (Some (older ++ [latest])) st) =
       Some (_id latest) /\
     error (fetchSettled (Some (older ++ [latest])) st) = error st) /\
  (rectangles (fetchSettled (Some []) st) = rectangles st /\
   annotationId (fetchSettled (Some []) st) = annotationId st /\
   error (fetchSettled (Some []) st) = error st) /\
  (rectangles (fetchSettled None st) = rectangles st /\
   annotationId (fetchSettled None st) = annotationId st /\
   error (fetchSettled None st) = "Failed to load annotations") /\
  (forall outcome,
     loading (fetchSettled outcome st) = false /\
     selectedId (fetchSettled outcome st) = selectedId st /\
     autoSave (fetchSettled outcome st) = autoSave st).
Proof.
  split; [|split; [|split]].
  - intros older latest. unfold fetchSettled.
    rewrite rev_app_distr. simpl. repeat split.
  - repeat split.
  - repeat split.
  - intros outcome.
    destruct (fetchSettled_frame outcome st) as (Hl & Hs & Ha & _).
    repeat split; assumption.
Qed.

(** ** Moving *)

Lemma movedRect_shaped (n : node) (s : string) (rect : value) :
  rectShaped rect = true ->
  exists props i,
    rect = JObj props /\
    lookup "id" props = Def (JStr i) /\
    movedRect n (Def (JStr s)) rect =
    Some (if (i =? s)%string
          then JObj (setProp "y" (JNum (nodeY n))
                       (setProp "x" (JNum (nodeX n)) props))
          else rect).
Proof.
  intros Hshape.
  destruct (rectShaped_props rect Hshape)
    as (props & i & a & b & w & h & c & -> & Hi & _).
  exists props, i. split; [reflexivity|]. split; [exact Hi|].
  unfold movedRect. simpl. rewrite Hi. simpl.
  destruct (i =? s)%string; reflexivity.
Qed.

(** X2. Ending a drag on a store of Rectangle records, at the id [s],
    returns a sequence of the same length in which every rectangle whose id
    is [s] has the position of the node and all its other properties
    (width, height, id, colour among them) as before, and every other
    rectangle is unchanged; the selection is not touched. *)
Theorem handleDragEnd_moves (n : node) (s : string) (st : Canvas) :
  Forall (fun rect => rectShaped rect = true) (rectangles st) ->
  exists st',
    handleDragEnd n (Def (JStr s)) st = Some st' /\
    selectedId st' = selectedId st /\
    List.length (rectangles st') = List.length (rectangles st) /\
    (forall i rect,
       nth_error (rectangles st) i = Some rect ->
       getProp "id" rect = Some (Def (JStr s)) ->
       exists rect',
         nth_error (rectangles st') i = Some rect' /\
         getProp "x" rect' = Some (Def (JNum (nodeX n))) /\
         getProp "y" rect' = Some (Def (JNum (nodeY n))) /\
         (forall k, k <> "x"%string -> k <> "y"%string ->
                    getProp k rect' = getProp k rect)) /\
    (forall i rect,
       nth_error (rectangles st) i = Some rect ->
       getProp "id" rect <> Some (Def (JStr s)) ->
       nth_error (rectangles st') i = Some rect).
Proof.
  intros Hshape. rewrite Forall_forall in Hshape.
  destruct (mapM_total (movedRect n (Def (JStr s))) (rectangles st))
    as [updated Hupd].
  { intros rect Hin.
    destruct (movedRect_shaped n s rect (Hshape _ Hin)) as (props & i & _ & _ & ->).
    eexists. reflexivity. }
  destruct (mapM_nth _ _ _ Hupd) as [Hlen Hnth].
  exists (setRectangles updated st).
  split; [unfold handleDragEnd; rewrite Hupd; reflexivity|].
  split; [reflexivity|]. split; [exact Hlen|]. split.
  - intros i rect Hi Hid.
    destruct (Hnth i rect Hi) as (rect' & Hf & Hi').
    assert (Hin : In rect (rectangles st)) by (eapply nth_error_In; eassumption).
    destruct (movedRect_shaped n s rect (Hshape _ Hin))
      as (props & j & -> & Hj & Hres).
    simpl in Hid. rewrite Hj in Hid. injection Hid as ->.
    rewrite Hres, String.eqb_refl in Hf. injection Hf as <-.
    eexists. split; [exact Hi'|]. simpl.
    rewrite lookup_setProp_other, !lookup_setProp_same by discriminate.
    do 2 (split; [reflexivity|]).
    intros k Hx Hy. rewrite !lookup_setProp_other by congruence. reflexivity.
  - intros i rect Hi Hid.
    destruct (Hnth i rect Hi) as (rect' & Hf & Hi').
    assert (Hin : In rect (rectangles st)) by (eapply nth_error_In; eassumption).
    destruct (movedRect_shaped n s rect (Hshape _ Hin))
      as (props & j & -> & Hj & Hres).
    rewrite Hres in Hf. destruct (j =? s)%string eqn:E.
    + apply String.eqb_eq in E. subst j. simpl in Hid. rewrite Hj in Hid.
      contradiction Hid. reflexivity.
    + injection Hf as <-. exact Hi'.
Qed.

Lemma handleDragEnd_moves_witness :
  exists st',
    handleDragEnd shrunkNode (Def (JStr "rect-1000")) drawnCanvas = Some st' /\
    List.length (rectangles st') = List.length (rectangles drawnCanvas).
Proof.
  destruct (handleDragEnd_moves shrunkNode "rect-1000" drawnCanvas)
    as (st' & Hres & _ & Hlen & _).
  - vm_compute. repeat constructor.
  - exists st'. split; [exact Hres|exact Hlen].
Defined.

(** ** Tracking the pointer *)

(** X3. While a gesture is tracked only the last pointer position counts: a
    move followed by another move gives the state the second move alone
    gives.  A move never changes the rectangle sequence, the selection or the
    start point, and it leaves the origin, the id and the colour of the
    provisional rectangle alone. *)
Theorem handleMouseMove_last_position_wins (p1 p2 : point) (st : Canvas) :
  handleMouseMove p2 (handleMouseMove p1 st) = handleMouseMove p2 st /\
  rectangles (handleMouseMove p1 st) = rectangles st /\
  selectedId (handleMouseMove p1 st) = selectedId st /\
  startPoint (handleMouseMove p1 st) = startPoint st /\
  (forall cur, currentRect st = Some cur ->
     exists cur', currentRect (handleMouseMove p1 st) = Some cur' /\
                  Rect.id cur' = Rect.id cur /\ Rect.x cur' = Rect.x cur /\
                  Rect.y cur' = Rect.y cur /\
                  Rect.color cur' = Rect.color cur) /\
  (currentRect st = None -> handleMouseMove p1 st = st).
Proof.
  unfold handleMouseMove.
  destruct (isDrawing st) eqn:Ed; simpl.
  - destruct (startPoint st) as [start|] eqn:Es;
      destruct (currentRect st) as [cur|] eqn:Ec; simpl;
      rewrite ?Ed, ?Es, ?Ec; simpl;
      repeat split; try reflexivity;
      try (intros Hc; discriminate Hc);
      intros c Hc; first [discriminate Hc | injection Hc as <-];
      eexists; repeat split.
  - rewrite Ed. simpl. repeat split; try reflexivity.
    intros c Hc. exists c. repeat split. exact Hc.
Qed.

Lemma handleMouseMove_last_position_wins_witness :
  exists cur',
    currentRect (handleMouseMove (pt 7 7) trackingCanvas) = Some cur' /\
    Rect.x cur' = 100 /\ Rect.y cur' = 100.
Proof.
  destruct (handleMouseMove_last_position_wins (pt 7 7) (pt 8 8) trackingCanvas)
    as (_ & _ & _ & _ & Hcur & _).
  destruct (Hcur (provisional (pt 100 100) (pt 40 60) 1000 (1 # 2)) eq_refl)
    as (cur' & H & _ & Hx & Hy & _).
  exists cur'. split; [exact H|]. split; [exact Hx|exact Hy].
Defined.

(** X4. Drawing mode gates the start of a gesture and its tracking, not its
    end.  Outside drawing mode, with no gesture in progress, a whole gesture
    changes neither the sequence nor the provisional rectangle.  When drawing
    mode is switched off while a gesture is tracked, later moves are ignored
    and pointer-up commits (or drops) the rectangle as it was tracked before
    the switch.  A pointer-down that is not on the stage starts nothing, and
    after pointer-up moves are ignored until the next pointer-down. *)
Theorem drawing_mode_gates_the_gesture (st : Canvas) :
  (forall from to now rnd,
     isDrawing st = false -> currentRect st = None ->
     rectangles (gesture from to now rnd st) = rectangles st /\
     generation (gesture from to now rnd st) = generation st /\
     currentRect (gesture from to now rnd st) = None) /\
  (forall pos,
     handleMouseMove pos (setIsDrawing false st) = setIsDrawing false st) /\
  (forall b,
     rectangles (handleMouseUp (setIsDrawing b st)) =
       rectangles (handleMouseUp st) /\
     currentRect (handleMouseUp (setIsDrawing b st)) = None) /\
  (forall pos now rnd, handleMouseDown false pos now rnd st = st) /\
  (forall pos, handleMouseMove pos (handleMouseUp st) = handleMouseUp st).
Proof.
  split; [|split; [|split; [|split]]];
    [| | | |intros pos; unfold handleMouseMove;
            destruct (isDrawing (handleMouseUp st)); reflexivity].
  - intros from to now rnd Hd Hc. unfold gesture, handleMouseDown.
    rewrite Hd. simpl. unfold handleMouseMove. rewrite Hd. simpl.
    unfold handleMouseUp. rewrite Hc. repeat split.
  - intros pos. reflexivity.
  - intros b. rewrite !handleMouseUp_rectangles. split; reflexivity.
  - intros pos now rnd. unfold handleMouseDown.
    rewrite orb_true_r. reflexivity.
Qed.

Lemma drawing_mode_gates_the_gesture_witness :
  rectangles (gesture (pt 0 0) (pt 50 50) 1000 (1 # 2)
                (fetchSettled (Some []) initial)) = [].
Proof.
  destruct (drawing_mode_gates_the_gesture (fetchSettled (Some []) initial))
    as (H & _).
  apply (H (pt 0 0) (pt 50 50) 1000%Z (1 # 2)); reflexivity.
Defined.

(** ** The resize handle *)

Lemma boundBoxFunc_floor (oldBox newBox : box) :
  boxAtLeast5 oldBox = true ->
  boxAtLeast5 (boundBoxFunc oldBox newBox) = true.
Proof.
  intros Hold. unfold boundBoxFunc.
  destruct (Qltb (boxWidth newBox) 5) eqn:Ew; [exact Hold|].
  destruct (Qltb (boxHeight newBox) 5) eqn:Eh; [exact Hold|]. simpl.
  apply Qltb_ge in Ew, Eh. unfold boxAtLeast5.
  apply andb_true_iff. split; apply Qle_bool_iff; assumption.
Qed.

(** X5. The bound-box function always answers with one of its two boxes, and
    a resize interaction that starts from a box of at least 5 by 5 never
    shows a smaller one: whatever boxes are attempted in turn, each one
    bounded against the box kept so far, the box kept is at least 5 by 5. *)
Theorem boundBoxFunc_never_below_floor (start : box) (attempts : list box) :
  boxAtLeast5 start = true ->
  boxAtLeast5 (fold_left boundBoxFunc attempts start) = true /\
  (forall oldBox newBox,
     boundBoxFunc oldBox newBox = oldBox \/
     boundBoxFunc oldBox newBox = newBox).
Proof.
  intros Hstart. split.
  - revert start Hstart. induction attempts as [|b rest IH]; intros start Hs.
    + exact Hs.
    + simpl. apply IH. apply boundBoxFunc_floor. exact Hs.
  - intros oldBox newBox. unfold boundBoxFunc.
    destruct (Qltb (boxWidth newBox) 5 || Qltb (boxHeight newBox) 5);
      [left|right]; reflexivity.
Qed.

Lemma boundBoxFunc_never_below_floor_witness :
  boxAtLeast5
    (fold_left boundBoxFunc
       [ {| boxX := 0; boxY := 0; boxWidth := 3; boxHeight := 40;
            rotation := 0 |};
         {| boxX := 0; boxY := 0; boxWidth := 30; boxHeight := 7;
            rotation := 0 |} ]
       {| boxX := 0; boxY := 0; boxWidth := 60; boxHeight := 40;
          rotation := 0 |}) = true.
Proof.
  apply boundBoxFunc_never_below_floor. reflexivity.
Defined.

(** ** The selected rectangle *)

Lemma findM_find {A : Type} (f : A -> option bool) (g : A -> bool)
    (l : list A) :
  (forall a, In a l -> f a = Some (g a)) -> findM f l = Some (find g l).
Proof.
  induction l as [|a0 l IH]; intros H; [reflexivity|].
  simpl. rewrite (H a0 (or_introl eq_refl)). simpl.
  destruct (g a0); [reflexivity|].
  apply IH. intros a Ha. apply H. right. exact Ha.
Qed.

Lemma hasId_shaped (a : jsval) (rect : value) :
  rectShaped rect = true ->
  (rid <- getProp "id" rect ;; strictEq rid a) = Some (hasId a rect) /\
  truthy (Def rect) = true /\
  hasId null rect = false /\
  (forall s, hasId (Def (JStr s)) rect = true <->
             getProp "id" rect = Some (Def (JStr s))).
Proof.
  intros Hshape.
  destruct (rectShaped_props rect Hshape)
    as (props & i & _ & _ & _ & _ & _ & -> & Hi & _).
  unfold hasId. simpl. rewrite Hi. simpl.
  split; [|split; [reflexivity|split; [reflexivity|]]].
  - destruct a as [|[]]; reflexivity.
  - intros s. rewrite String.eqb_eq. split; [intros ->; reflexivity|].
    intros H. injection H as ->. reflexivity.
Qed.

Lemma getSelectedRect_shaped (st : Canvas) :
  Forall (fun rect => rectShaped rect = true) (rectangles st) ->
  getSelectedRect st =
  Some match find (hasId (selectedId st)) (rectangles st) with
       | Some rect => Def rect
       | None => null
       end.
Proof.
  intros Hshape. rewrite Forall_forall in Hshape. unfold getSelectedRect.
  rewrite (findM_find _ (hasId (selectedId st))).
  - cbn [bind].
    destruct (find _ (rectangles st)) as [rect|] eqn:Ef; [|reflexivity].
    apply find_some in Ef. destruct Ef as [Hin _].
    destruct (hasId_shaped (selectedId st) rect (Hshape _ Hin)) as (_ & -> & _).
    reflexivity.
  - intros rect Hin. apply (hasId_shaped _ _ (Hshape _ Hin)).
Qed.

Lemma find_first {A : Type} (g : A -> bool) (l : list A) (a : A) :
  find g l = Some a ->
  exists i, nth_error l i = Some a /\ g a = true /\
            forall j b, (j < i)%nat -> nth_error l j = Some b -> g b = false.
Proof.
  induction l as [|a0 l IH]; intros H; simpl in H; [discriminate H|].
  destruct (g a0) eqn:E.
  - injection H as <-. exists 0%nat. split; [reflexivity|].
    split; [exact E|]. intros j b Hj. lia.
  - destruct (IH H) as (i & Hi & Hg & Hbefore). exists (S i).
    split; [exact Hi|]. split; [exact Hg|].
    intros [|j] b Hj Hb; simpl in Hb.
    + injection Hb as <-. exact E.
    + apply (Hbefore j b); [lia|exact Hb].
Qed.

(** On a store of Rectangle records, what [find] returns for an id. *)
Lemma getSelectedRect_first (st : Canvas) (s : string) :
  Forall (fun rect => rectShaped rect = true) (rectangles st) ->
  selectedId st = Def (JStr s) ->
  (exists i rect,
     getSelectedRect st = Some (Def rect) /\
     nth_error (rectangles st) i = Some rect /\
     getProp "id" rect = Some (Def (JStr s)) /\
     forall j other, (j < i)%nat -> nth_error (rectangles st) j = Some other ->
                     getProp "id" other <> Some (Def (JStr s))) \/
  (getSelectedRect st = Some null /\
   forall rect, In rect (rectangles st) ->
                getProp "id" rect <> Some (Def (JStr s))).
Proof.
  intros Hshape Hsel. pose proof Hshape as Hall.
  rewrite Forall_forall in Hall.
  rewrite (getSelectedRect_shaped st Hshape), Hsel.
  destruct (find _ (rectangles st)) as [rect|] eqn:Ef.
  - left. destruct (find_first _ _ _ Ef) as (i & Hi & Hid & Hbefore).
    exists i, rect. split; [reflexivity|]. split; [exact Hi|].
    assert (Hin : In rect (rectangles st))
      by (eapply nth_error_In; eassumption).
    split; [apply (hasId_shaped (Def (JStr s)) rect (Hall _ Hin)); exact Hid|].
    intros j other Hj Hother Habs.
    assert (Hin' : In other (rectangles st))
      by (eapply nth_error_In; eassumption).
    apply (hasId_shaped (Def (JStr s)) other (Hall _ Hin')) in Habs.
    rewrite (Hbefore j other Hj Hother) in Habs. discriminate Habs.
  - right. split; [reflexivity|]. intros rect Hin Hid.
    apply (hasId_shaped (Def (JStr s)) rect (Hall _ Hin)) in Hid.
    rewrite (find_none _ _ Ef rect Hin) in Hid. discriminate Hid.
Qed.

(** X6. On a store of Rectangle records the information panel shows the
    first rectangle whose id is the selected one: the rectangle at some
    position that has the selected id, when no rectangle at an earlier
    position has it; and it shows nothing ([null]) when no rectangle has that
    id or when the selection is null.  So it shows nothing after the selected
    rectangles were deleted and after "Clear All".  After a click on the
    rectangle at position [i] it shows the first rectangle that has the id of
    the clicked one, at a position no later than [i]: the clicked rectangle
    itself when no earlier rectangle shares its id, an earlier one
    otherwise. *)
Theorem getSelectedRect_follows_the_selection (st : Canvas) :
  Forall (fun rect => rectShaped rect = true) (rectangles st) ->
  (forall s, selectedId st = Def (JStr s) ->
     (exists i rect,
        getSelectedRect st = Some (Def rect) /\
        nth_error (rectangles st) i = Some rect /\
        getProp "id" rect = Some (Def (JStr s)) /\
        forall j other,
          (j < i)%nat -> nth_error (rectangles st) j = Some other ->
          getProp "id" other <> Some (Def (JStr s))) \/
     (getSelectedRect st = Some null /\
      forall rect, In rect (rectangles st) ->
                   getProp "id" rect <> Some (Def (JStr s)))) /\
  (selectedId st = null -> getSelectedRect st = Some null) /\
  (forall st',
     truthy (selectedId st) = true -> deleteSelected st = Some st' ->
     getSelectedRect st' = Some null) /\
  getSelectedRect (clearAll st) = Some null /\
  (forall i clicked id,
     nth_error (rectangles st) i = Some clicked ->
     idOf i st = Some id ->
     (exists k rect,
        (k <= i)%nat /\
        getSelectedRect (setSelectedId id st) = Some (Def rect) /\
        nth_error (rectangles st) k = Some rect /\
        getProp "id" rect = Some id /\
        forall j other,
          (j < k)%nat -> nth_error (rectangles st) j = Some other ->
          getProp "id" other <> Some id) /\
     ((forall j other,
         (j < i)%nat -> nth_error (rectangles st) j = Some other ->
         getProp "id" other <> Some id) ->
      getSelectedRect (setSelectedId id st) = Some (Def clicked))).
Proof.
  intros Hshape. pose proof Hshape as Hall. rewrite Forall_forall in Hall.
  assert (Hnull : forall st0,
            Forall (fun rect => rectShaped rect = true) (rectangles st0) ->
            selectedId st0 = null -> getSelectedRect st0 = Some null).
  { intros st0 H0 Hsel. rewrite (getSelectedRect_shaped st0 H0), Hsel.
    destruct (find _ (rectangles st0)) as [rect|] eqn:Ef; [|reflexivity].
    apply find_some in Ef. destruct Ef as [Hin Hid].
    rewrite Forall_forall in H0.
    destruct (hasId_shaped null rect (H0 _ Hin)) as (_ & _ & Hno & _).
    congruence. }
  split; [|split; [|split; [|split]]].
  - intros s Hsel. exact (getSelectedRect_first st s Hshape Hsel).
  - exact (Hnull st Hshape).
  - intros st' Htruthy Hdel. unfold deleteSelected in Hdel.
    rewrite Htruthy in Hdel.
    destruct (filterM _ (rectangles st)) as [kept|] eqn:Ef; [|discriminate Hdel].
    simpl in Hdel. injection Hdel as <-. apply Hnull; [|reflexivity].
    simpl. apply Forall_forall. intros rect Hin.
    apply Hall. exact (proj1 (filterM_incl _ _ _ Ef rect Hin)).
  - apply Hnull; [constructor|reflexivity].
  - intros i clicked id Hi Hid. unfold idOf in Hid. rewrite Hi in Hid.
    simpl in Hid.
    assert (Hin : In clicked (rectangles st))
      by (eapply nth_error_In; eassumption).
    destruct (rectShaped_props clicked (Hall _ Hin))
      as (props & s & _ & _ & _ & _ & _ & Hclicked & Hs & _).
    assert (Hcid : getProp "id" clicked = Some (Def (JStr s)))
      by (rewrite Hclicked; simpl; rewrite Hs; reflexivity).
    rewrite Hcid in Hid. injection Hid as <-.
    destruct (getSelectedRect_first (setSelectedId (Def (JStr s)) st) s
                Hshape eq_refl)
      as [(k & rect & Hsel & Hk & Hrid & Hbefore)|[_ Hnone]];
      [|exfalso; exact (Hnone clicked Hin Hcid)].
    simpl in Hk, Hbefore.
    assert (Hle : (k <= i)%nat).
    { destruct (Nat.le_gt_cases k i) as [Hle|Hgt]; [exact Hle|].
      exfalso. exact (Hbefore i clicked Hgt Hi Hcid). }
    split.
    + exists k, rect. repeat (split; [assumption|]). exact Hbefore.
    + intros Hearlier. rewrite Hsel.
      destruct (Nat.eq_dec k i) as [->|Hne].
      * rewrite Hi in Hk. injection Hk as <-. reflexivity.
      * exfalso. apply (Hearlier k rect); [lia|exact Hk|exact Hrid].
Qed.

Lemma getSelectedRect_follows_the_selection_witness :
  getSelectedRect (clearAll selectedCanvas) = Some null /\
  getSelectedRect (setSelectedId (Def (JStr "rect-1000")) drawnCanvas) =
    Some (Def (JObj [ ("id", JStr "rect-1000"); ("x", JNum 40);
                      ("y", JNum 60); ("width", JNum 60);
                      ("height", JNum 40); ("color", JStr "#7fffff") ])).
Proof.
  assert (Hshape : Forall (fun rect => rectShaped rect = true)
                     (rectangles drawnCanvas))
    by (vm_compute; repeat constructor).
  destruct (getSelectedRect_follows_the_selection drawnCanvas Hshape)
    as (_ & _ & _ & _ & Hclick).
  destruct (getSelectedRect_follows_the_selection selectedCanvas Hshape)
    as (_ & _ & _ & Hclear & _).
  split; [exact Hclear|].
  apply (proj2 (Hclick 0%nat _ (Def (JStr "rect-1000")) eq_refl eq_refl)).
  intros j other Hj. lia.
Defined.

(** ** Rectangle records stay Rectangle records *)

Lemma lookup_setProp (k k' : string) (v : value) props :
  lookup k' (setProp k v props) =
  if (k =? k')%string then Def v else lookup k' props.
Proof.
  destruct (k =? k')%string eqn:E.
  - apply String.eqb_eq in E. subst k'. apply lookup_setProp_same.
  - apply lookup_setProp_other. intros ->. rewrite String.eqb_refl in E.
    discriminate E.
Qed.

Lemma atLeast5_drawn (cur : Rect.t) :
  bigEnough cur = true -> atLeast5 (objOfRect (finalRect cur)) = true.
Proof.
  intros Hbig. apply bigEnough_iff in Hbig. destruct Hbig as [Hw Hh].
  unfold atLeast5. simpl. apply andb_true_iff.
  split; apply Qle_bool_iff, Qlt_le_weak; assumption.
Qed.

Lemma atLeast5_props (v : value) :
  atLeast5 v = true ->
  rectShaped v = true /\
  exists props w h,
    v = JObj props /\ lookup "width" props = Def (JNum w) /\
    lookup "height" props = Def (JNum h) /\ 5 <= w /\ 5 <= h.
Proof.
  unfold atLeast5. intros H. apply andb_true_iff in H. destruct H as [Hs H].
  split; [exact Hs|].
  destruct (rectShaped_props v Hs)
    as (props & i & a & b & w & h & c & -> & _ & _ & _ & Hw & Hh & _).
  simpl in H. rewrite Hw, Hh in H. apply andb_true_iff in H.
  exists props, w, h. rewrite !Qle_bool_iff in H. tauto.
Qed.

Lemma atLeast5_intro props (i c : string) (a b w h : Q) :
  lookup "id" props = Def (JStr i) -> lookup "x" props = Def (JNum a) ->
  lookup "y" props = Def (JNum b) -> lookup "width" props = Def (JNum w) ->
  lookup "height" props = Def (JNum h) ->
  lookup "color" props = Def (JStr c) ->
  5 <= w -> 5 <= h -> atLeast5 (JObj props) = true.
Proof.
  intros Hi Ha Hb Hw Hh Hc Lw Lh. unfold atLeast5, rectShaped. simpl.
  rewrite Hi, Ha, Hb, Hw, Hh, Hc. simpl.
  apply andb_true_iff. split; apply Qle_bool_iff; assumption.
Qed.

Lemma movedRect_atLeast5 (n : node) (id : jsval) (rect rect' : value) :
  atLeast5 rect = true -> movedRect n id rect = Some rect' ->
  atLeast5 rect' = true.
Proof.
  intros Hok Hm. destruct (atLeast5_props rect Hok) as (Hs & _).
  destruct (rectShaped_props rect Hs)
    as (props & i & a & b & w & h & c & -> & Hi & Ha & Hb & Hw & Hh & Hc).
  destruct (atLeast5_props _ Hok)
    as (_ & props' & w' & h' & Heq & Hw' & Hh' & Lw & Lh).
  injection Heq as <-. rewrite Hw in Hw'. rewrite Hh in Hh'.
  injection Hw' as <-. injection Hh' as <-.
  unfold movedRect in Hm. simpl in Hm. rewrite Hi in Hm.
  destruct (strictEq (Def (JStr i)) id) as [[|]|]; simpl in Hm;
    try discriminate Hm; injection Hm as <-; [|exact Hok].
  eapply atLeast5_intro; rewrite ?lookup_setProp; simpl;
    first [eassumption | reflexivity].
Qed.

Lemma resizedRect_atLeast5 (n : node) (sX sY : Q) (id : jsval)
    (rect rect' : value) :
  atLeast5 rect = true -> resizedRect n sX sY id rect = Some rect' ->
  atLeast5 rect' = true.
Proof.
  intros Hok Hm. destruct (atLeast5_props rect Hok) as (Hs & _).
  destruct (rectShaped_props rect Hs)
    as (props & i & a & b & w & h & c & -> & Hi & Ha & Hb & Hw & Hh & Hc).
  unfold resizedRect in Hm. simpl in Hm. rewrite Hi in Hm.
  destruct (strictEq (Def (JStr i)) id) as [[|]|]; simpl in Hm;
    try discriminate Hm; [|injection Hm as <-; exact Hok].
  rewrite Hw, Hh in Hm. simpl in Hm. injection Hm as <-.
  eapply atLeast5_intro; rewrite ?lookup_setProp; simpl;
    first [eassumption | reflexivity | apply Q.le_max_l].
Qed.

Lemma mapM_In_inv {A B : Type} (f : A -> option B) (l : list A) (l' : list B) :
  mapM f l = Some l' ->
  forall b, In b l' -> exists a, In a l /\ f a = Some b.
Proof.
  revert l'. induction l as [|a0 l IH]; intros l' H b Hb; simpl in H.
  - injection H as <-. destruct Hb.
  - destruct (f a0) as [b0|] eqn:Ef; [|discriminate]. simpl in H.
    destruct (mapM f l) as [bs|] eqn:Em; [|discriminate]. simpl in H.
    injection H as <-. destruct Hb as [<-|Hb].
    + exists a0. split; [left; reflexivity|exact Ef].
    + destruct (IH bs eq_refl b Hb) as (a & Ha & Hf).
      exists a. split; [right; exact Ha|exact Hf].
Qed.

Lemma forallb_Forall {A : Type} (f : A -> bool) (l : list A) :
  forallb f l = true -> Forall (fun a => f a = true) l.
Proof.
  intros H. apply Forall_forall. apply forallb_forall. exact H.
Qed.

Lemma handle_ui_atLeast5 (now : Z) (e : event) (st st' : Canvas) :
  wellFormedInput e = true ->
  handle_ui now e st = Some st' ->
  Forall (fun rect => atLeast5 rect = true) (rectangles st) ->
  Forall (fun rect => atLeast5 rect = true) (rectangles st').
Proof.
  intros Hwf H Hall. destruct e; simpl in H; try discriminate H.
  - injection H as <-. exact Hall.
  - injection H as <-.
    destruct (handleMouseDown_frame onStage pos now rnd st) as (-> & _).
    exact Hall.
  - injection H as <-.
    destruct (handleMouseMove_frame pos st) as (-> & _). exact Hall.
  - injection H as <-. rewrite handleMouseUp_rectangles.
    destruct (currentRect st) as [cur|]; [|exact Hall].
    destruct (bigEnough cur) eqn:Eb; [|exact Hall].
    apply Forall_app. split; [exact Hall|].
    constructor; [|constructor]. apply atLeast5_drawn. exact Eb.
  - crunch_handler. exact Hall.
  - destruct (idOf i st) as [id|]; simpl in H; [|discriminate H].
    unfold handleDragEnd in H.
    destruct (mapM _ (rectangles st)) as [updated|] eqn:Em; simpl in H;
      [|discriminate H].
    injection H as <-. simpl.
    apply Forall_forall. intros rect' Hin.
    destruct (mapM_In_inv _ _ _ Em rect' Hin) as (rect & Hin0 & Hf).
    rewrite Forall_forall in Hall.
    exact (movedRect_atLeast5 _ _ _ _ (Hall _ Hin0) Hf).
  - destruct (idOf i st) as [id|]; simpl in H; [|discriminate H].
    unfold handleTransformEnd in H.
    destruct (mapM _ (rectangles st)) as [updated|] eqn:Em; simpl in H;
      [|discriminate H].
    injection H as <-. simpl.
    apply Forall_forall. intros rect' Hin.
    destruct (mapM_In_inv _ _ _ Em rect' Hin) as (rect & Hin0 & Hf).
    rewrite Forall_forall in Hall.
    exact (resizedRect_atLeast5 _ _ _ _ _ _ (Hall _ Hin0) Hf).
  - destruct (truthy (selectedId st)) eqn:Et; [|discriminate H].
    unfold deleteSelected in H. rewrite Et in H.
    destruct (filterM _ (rectangles st)) as [kept|] eqn:Ef; simpl in H;
      [|discriminate H].
    injection H as <-. simpl.
    apply Forall_forall. intros rect Hin. rewrite Forall_forall in Hall.
    apply Hall. exact (proj1 (filterM_incl _ _ _ Ef rect Hin)).
  - crunch_handler. constructor.
  - crunch_handler. exact Hall.
  - injection H as <-. unfold loadFromFile, parsedAlready, onload.
    destruct file as [[|[]]|]; try exact Hall.
    simpl. apply forallb_Forall. exact Hwf.
  - injection H as <-. exact Hall.
Qed.

(** What one event does to the state of the component. *)
Lemma step_ui_cases (w w' : World) (now : Z) (e : event) :
  step w now e = Some w' ->
  match e with
  | Idle => ui w' = ui w
  | SaveToDatabase =>
      loading (ui w) = false /\ rectangles (ui w) <> [] /\ ui w' = ui w
  | FetchSettled outcome =>
      loading (ui w) = true /\ ui w' = fetchSettled outcome (ui w)
  | SaveSettled k outcome =>
      exists req, In req (inFlight (advance now w)) /\
                  ui w' = saveSettled req outcome (ui w)
  | _ => loading (ui w) = false /\ handle_ui now e (ui w) = Some (ui w')
  end.
Proof.
  unfold step. destruct (now <? clock w)%Z; [discriminate|].
  destruct (advance_spec now w) as (Hui & _).
  assert (Hcase : (if loading (ui (advance now w)) then None
                   else st <- handle_ui now e (ui (advance now w)) ;;
                        rerender st (advance now w)) = Some w' ->
                  loading (ui w) = false /\
                  handle_ui now e (ui w) = Some (ui w')).
  { rewrite Hui. destruct (loading (ui w)); [discriminate|].
    destruct (handle_ui now e (ui w)) as [st|]; [|discriminate].
    simpl. intros H. apply rerender_update in H. subst w'.
    rewrite ui_update. split; reflexivity. }
  destruct e; try exact Hcase; clear Hcase; rewrite ?Hui.
  - destruct (loading (ui w)); [|discriminate].
    intros H. apply rerender_update in H. subst w'. rewrite ui_update.
    split; reflexivity.
  - destruct (loading (ui w)) eqn:El; [discriminate|]. simpl.
    destruct (List.length (rectangles (ui w)) =? 0)%nat eqn:Elen;
      [discriminate|].
    intros H. injection H as <-. simpl.
    split; [reflexivity|]. split; [|exact Hui].
    intros Hnil. rewrite Hnil in Elen. discriminate Elen.
  - destruct (nth_error (inFlight (advance now w)) k) as [req|] eqn:En;
      [|discriminate].
    simpl. intros H. apply rerender_update in H. subst w'.
    rewrite ui_update.
    exists req. split; [eapply nth_error_In; eassumption|reflexivity].
  - intros H. injection H as <-. exact Hui.
Qed.

Lemma step_atLeast5 (w w' : World) (now : Z) (e : event) :
  wellFormedInput e = true -> step w now e = Some w' ->
  Forall (fun rect => atLeast5 rect = true) (rectangles (ui w)) ->
  Forall (fun rect => atLeast5 rect = true) (rectangles (ui w')).
Proof.
  intros Hwf Hstep Hall. pose proof (step_ui_cases _ _ _ _ Hstep) as Hc.
  destruct e;
    try exact (handle_ui_atLeast5 _ _ _ _ Hwf (proj2 Hc) Hall).
  - destruct Hc as [_ ->]. unfold fetchSettled.
    destruct outcome as [data|]; [|exact Hall]. simpl.
    destruct (rev data) as [|latest older] eqn:Er; [exact Hall|]. simpl.
    simpl in Hwf. rewrite forallb_forall in Hwf.
    apply forallb_Forall. apply Hwf.
    apply in_rev. rewrite Er. left. reflexivity.
  - destruct Hc as (_ & _ & ->). exact Hall.
  - destruct Hc as (req & _ & ->).
    destruct (saveSettled_frame req outcome (ui w))
      as (_ & _ & _ & _ & _ & _ & _ & ->).
    exact Hall.
  - rewrite Hc. exact Hall.
Qed.

(** X7. As long as what the service answers and what is imported consists of
    Rectangle records of at least 5 by 5, so does the stored sequence, in
    every state a session reaches: drawing only commits such rectangles,
    moving keeps sizes, resizing floors them at 5, and deleting only
    removes. *)
Theorem store_keeps_rectangle_records
    (t0 : Z) (events : list (Z * event)) (w : World) :
  forallb (fun te => wellFormedInput (snd te)) events = true ->
  run (mount t0) events = Some w ->
  Forall (fun rect => atLeast5 rect = true) (rectangles (ui w)).
Proof.
  assert (Hgen : forall evs w0,
            forallb (fun te => wellFormedInput (snd te)) evs = true ->
            run w0 evs = Some w ->
            Forall (fun rect => atLeast5 rect = true) (rectangles (ui w0)) ->
            Forall (fun rect => atLeast5 rect = true) (rectangles (ui w))).
  { induction evs as [|[now e] rest IH]; intros w0 Hwf Hrun Hall; simpl in Hrun.
    - injection Hrun as <-. exact Hall.
    - simpl in Hwf. apply andb_true_iff in Hwf. destruct Hwf as [He Hrest].
      destruct (step w0 now e) as [w1|] eqn:Es; [|discriminate Hrun].
      simpl in Hrun.
      exact (IH w1 Hrest Hrun (step_atLeast5 _ _ _ _ He Es Hall)). }
  intros Hwf Hrun. apply (Hgen events (mount t0) Hwf Hrun). constructor.
Qed.

Lemma store_keeps_rectangle_records_witness :
  Forall (fun rect => atLeast5 rect = true)
    (rectangles (ui (worldAfter thenQuiet))).
Proof.
  apply (store_keeps_rectangle_records 0 thenQuiet).
  - vm_compute. reflexivity.
  - vm_compute. reflexivity.
Defined.

Lemma strictEq_string_total (i : string) (a : jsval) :
  exists same, strictEq (Def (JStr i)) a = Some same.
Proof.
  destruct a as [|[]]; eexists; reflexivity.
Qed.

(** X8. On a store of Rectangle records no handler throws, whatever is
    selected and whatever id it is called with: every rendered rectangle has
    a string id to pass on, and ending a drag, ending a resize, deleting and
    looking up the selected rectangle all return. *)
Theorem handlers_return_on_rectangle_records (st : Canvas) :
  Forall (fun rect => rectShaped rect = true) (rectangles st) ->
  (forall i, (i < List.length (rectangles st))%nat ->
             exists s, idOf i st = Some (Def (JStr s))) /\
  (forall n id, exists st', handleDragEnd n id st = Some st') /\
  (forall n id, exists n' st', handleTransformEnd n id st = Some (n', st')) /\
  (exists st', deleteSelected st = Some st') /\
  (exists shown, getSelectedRect st = Some shown).
Proof.
  intros Hshape. pose proof Hshape as Hall. rewrite Forall_forall in Hall.
  split; [|split; [|split; [|split]]].
  - intros i Hi. unfold idOf.
    destruct (nth_error (rectangles st) i) as [rect|] eqn:En.
    + assert (Hin : In rect (rectangles st))
        by (eapply nth_error_In; eassumption).
      destruct (rectShaped_props rect (Hall _ Hin))
        as (props & s & _ & _ & _ & _ & _ & -> & Hs & _).
      exists s. simpl. rewrite Hs. reflexivity.
    + apply nth_error_None in En. lia.
  - intros n id.
    destruct (mapM_total (movedRect n id) (rectangles st)) as [l Hl].
    { intros rect Hin.
      destruct (rectShaped_props rect (Hall _ Hin))
        as (props & s & _ & _ & _ & _ & _ & -> & Hs & _).
      unfold movedRect. simpl. rewrite Hs.
      destruct (strictEq_string_total s id) as [[|] ->]; eexists; reflexivity. }
    eexists. unfold handleDragEnd. rewrite Hl. reflexivity.
  - intros n id.
    destruct (mapM_total
                (resizedRect
                   {| nodeX := nodeX n; nodeY := nodeY n;
                      scaleX := 1; scaleY := 1 |}
                   (scaleX n) (scaleY n) id) (rectangles st)) as [l Hl].
    { intros rect Hin.
      destruct (rectShaped_props rect (Hall _ Hin))
        as (props & s & a & b & w & h & c & -> & Hs & _ & _ & Hw & Hh & _).
      unfold resizedRect. simpl. rewrite Hs.
      destruct (strictEq_string_total s id) as [[|] ->]; simpl;
        [rewrite Hw, Hh|]; eexists; reflexivity. }
    do 2 eexists. unfold handleTransformEnd. rewrite Hl. reflexivity.
  - unfold deleteSelected.
    destruct (truthy (selectedId st)); [|eexists; reflexivity].
    destruct (filterM_total
                (fun rect => rid <- getProp "id" rect ;;
                             same <- strictEq rid (selectedId st) ;;
                             Some (negb same)) (rectangles st)) as [kept Hk].
    { intros rect Hin.
      destruct (rectShaped_props rect (Hall _ Hin))
        as (props & s & _ & _ & _ & _ & _ & -> & Hs & _).
      simpl. rewrite Hs. cbn [bind].
      destruct (strictEq_string_total s (selectedId st)) as [same ->].
      eexists. reflexivity. }
    rewrite Hk. eexists. reflexivity.
  - rewrite (getSelectedRect_shaped st Hshape). eexists. reflexivity.
Qed.

Lemma handlers_return_on_rectangle_records_witness :
  exists s, idOf 0 drawnCanvas = Some (Def (JStr s)).
Proof.
  destruct (handlers_return_on_rectangle_records drawnCanvas) as (Hid & _).
  - vm_compute. repeat constructor.
  - apply Hid. vm_compute. reflexivity.
Defined.

(** ** The size a resize stores *)

(** X9. The stored width after a resize, for a Rectangle record with the
    resized id and width [w]: it is never below 5; a transform that does not
    scale (factor 1) keeps a width of at least 5 and raises a smaller one to
    5; a factor that brings the width to 5 or less, a mirroring (negative)
    factor among them, stores exactly 5.  The height behaves the same. *)
Theorem resizedRect_floors_the_size
    (n : node) (sX sY : Q) (s : string) (rect : value) (w h : Q) :
  rectShaped rect = true ->
  getProp "id" rect = Some (Def (JStr s)) ->
  getProp "width" rect = Some (Def (JNum w)) ->
  getProp "height" rect = Some (Def (JNum h)) ->
  exists rect' w' h',
    resizedRect n sX sY (Def (JStr s)) rect = Some rect' /\
    getProp "width" rect' = Some (Def (JNum w')) /\
    getProp "height" rect' = Some (Def (JNum h')) /\
    5 <= w' /\ 5 <= h' /\
    (sX == 1 -> 5 <= w -> w' == w) /\ (sX == 1 -> w <= 5 -> w' == 5) /\
    (w * sX <= 5 -> w' == 5) /\ (0 <= w -> sX <= 0 -> w' == 5) /\
    (sY == 1 -> 5 <= h -> h' == h) /\ (sY == 1 -> h <= 5 -> h' == 5) /\
    (h * sY <= 5 -> h' == 5) /\ (0 <= h -> sY <= 0 -> h' == 5).
Proof.
  intros Hshape Hid Hw Hh.
  destruct (resizedRect_shaped n sX sY s rect Hshape)
    as (props & i & w0 & h0 & -> & Hi & Hw0 & Hh0 & Hres).
  simpl in Hid, Hw, Hh. rewrite Hi in Hid. rewrite Hw0 in Hw. rewrite Hh0 in Hh.
  injection Hid as ->. injection Hw as ->. injection Hh as ->.
  rewrite String.eqb_refl in Hres.
  exists (JObj (setProp "height" (JNum (Qmax 5 (h * sY)))
                  (setProp "width" (JNum (Qmax 5 (w * sX)))
                     (setProp "y" (JNum (nodeY n))
                        (setProp "x" (JNum (nodeX n)) props))))),
         (Qmax 5 (w * sX)), (Qmax 5 (h * sY)).
  split; [exact Hres|]. simpl. rewrite !lookup_setProp. simpl.
  split; [reflexivity|]. split; [reflexivity|].
  split; [apply Q.le_max_l|]. split; [apply Q.le_max_l|].
  assert (Hone : forall a f : Q, f == 1 -> 5 <= a -> Qmax 5 (a * f) == a).
  { intros a f Hf Ha. rewrite Hf, Qmult_1_r. apply Q.max_r. exact Ha. }
  assert (Hsmall : forall a f : Q, a * f <= 5 -> Qmax 5 (a * f) == 5).
  { intros a f Ha. apply Q.max_l. exact Ha. }
  assert (Hone' : forall a f : Q, f == 1 -> a <= 5 -> Qmax 5 (a * f) == 5).
  { intros a f Hf Ha. apply Hsmall. rewrite Hf, Qmult_1_r. exact Ha. }
  assert (Hneg : forall a f : Q, 0 <= a -> f <= 0 -> Qmax 5 (a * f) == 5).
  { intros a f Ha Hf. apply Hsmall.
    apply Qle_trans with 0; [|discriminate].
    rewrite <- (Qmult_0_r a). rewrite (Qmult_comm a f), (Qmult_comm a 0).
    apply Qmult_le_compat_r; assumption. }
  repeat split; auto.
Qed.

Lemma resizedRect_floors_the_size_witness :
  exists rect' w' h',
    resizedRect shrunkNode (1 # 2) (1 # 100) (Def (JStr "rect-1000"))
      (objOfRect (finalRect (provisional (pt 100 100) (pt 40 60) 1000 (1 # 2))))
    = Some rect' /\
    getProp "width" rect' = Some (Def (JNum w')) /\
    getProp "height" rect' = Some (Def (JNum h')) /\ 5 <= w' /\ 5 <= h'.
Proof.
  destruct (resizedRect_floors_the_size shrunkNode (1 # 2) (1 # 100) "rect-1000"
              (objOfRect
                 (finalRect (provisional (pt 100 100) (pt 40 60) 1000 (1 # 2))))
              60 40)
    as (rect' & w' & h' & H1 & H2 & H3 & H4 & H5 & _);
    try reflexivity.
  exists rect', w', h'. repeat split; assumption.
Defined.

(** ** Identifiers *)

Lemma toString10_inj (a b : Z) :
  (0 <= a)%Z -> (0 <= b)%Z -> toString10 a = toString10 b -> a = b.
Proof.
  intros Ha Hb H. unfold toString10 in H.
  assert (Hnil : forall n, N.to_uint n <> Decimal.Nil).
  { intros [|p]; [discriminate|]. simpl.
    apply DecimalPos.Unsigned.to_uint_nonnil. }
  apply (f_equal DecimalString.NilZero.uint_of_string) in H.
  rewrite !DecimalString.NilZero.usu in H by apply Hnil.
  injection H as H. apply DecimalN.Unsigned.to_uint_inj in H.
  apply (f_equal Z.of_N) in H. rewrite !Z2N.id in H by assumption. exact H.
Qed.

(** X10. The id of a drawn rectangle is fixed by the millisecond of its
    pointer-down: two rectangles drawn at (non-negative) times [t1] and [t2]
    have the same id exactly when [t1 = t2], wherever and in whatever colour
    they were drawn.  Moving and resizing keep the id of every rectangle. *)
Theorem drawn_ids_follow_the_clock (t1 t2 : Z) :
  (0 <= t1)%Z -> (0 <= t2)%Z ->
  (forall from1 to1 rnd1 from2 to2 rnd2,
     getProp "id" (objOfRect (finalRect (provisional from1 to1 t1 rnd1))) =
     getProp "id" (objOfRect (finalRect (provisional from2 to2 t2 rnd2)))
     <-> t1 = t2) /\
  (forall n id rect rect',
     movedRect n id rect = Some rect' ->
     getProp "id" rect' = getProp "id" rect) /\
  (forall n sX sY id rect rect',
     resizedRect n sX sY id rect = Some rect' ->
     getProp "id" rect' = getProp "id" rect).
Proof.
  intros H1 H2. split; [|split].
  - intros from1 to1 rnd1 from2 to2 rnd2. simpl. split.
    + intros H. injection H as H. apply toString10_inj; assumption.
    + intros ->. reflexivity.
  - intros n id rect rect'. apply movedRect_id.
  - intros n sX sY id rect rect'. apply resizedRect_id.
Qed.

Lemma drawn_ids_follow_the_clock_witness :
  getProp "id" (objOfRect (finalRect
     (provisional (pt 0 0) (pt 9 9) 1000 (1 # 2)))) =
  getProp "id" (objOfRect (finalRect
     (provisional (pt 5 5) (pt 50 50) 2000 (1 # 3)))) <-> 1000%Z = 2000%Z.
Proof.
  apply (drawn_ids_follow_the_clock 1000 2000); discriminate.
Defined.

(** ** What is sent, and when *)

(** X11. A save always carries the rectangle list of the moment it is sent:
    the requests an event adds to the log, the one of a timeout that came
    due and the one of the save button, at most two, all carry the list as
    it was when the event arrived. *)
Theorem requests_carry_the_current_list (w w' : World) (now : Z) (e : event) :
  reachable w -> step w now e = Some w' ->
  exists new,
    sent w' = sent w ++ new /\ (List.length new <= 2)%nat /\
    Forall (fun p => body (snd p) = rectangles (ui w)) new.
Proof.
  intros Hreach Hstep. pose proof (reachable_invariant w Hreach) as Hinv.
  destruct (step_spec _ _ _ _ Hinv Hstep) as (_ & _ & Hs & _ & _).
  exists (fired now w ++ manualSave now e (ui w)). split; [exact Hs|].
  assert (Hfired : (List.length (fired now w) <= 1)%nat /\
                   Forall (fun p => body (snd p) = rectangles (ui w))
                          (fired now w)).
  { unfold fired.
    destruct (inv_timers w Hinv) as [->|(t & -> & _ & _ & Hseen & _)];
      simpl; [split; [lia|constructor]|].
    destruct (isDue now t); simpl; split; try lia; constructor;
      [|constructor].
    simpl. rewrite body_saveRequest. exact Hseen. }
  assert (Hman : (List.length (manualSave now e (ui w)) <= 1)%nat /\
                 Forall (fun p => body (snd p) = rectangles (ui w))
                        (manualSave now e (ui w))).
  { destruct e; simpl; split; try lia; try constructor; try constructor.
    simpl. apply body_saveRequest. }
  destruct Hfired as [Hl1 Hf1]. destruct Hman as [Hl2 Hf2].
  split; [rewrite length_app; lia|]. apply Forall_app. split; assumption.
Qed.

Lemma requests_carry_the_current_list_witness :
  exists new,
    sent (worldAfter savedTwice) = sent (worldAfter savedOnce) ++ new /\
    (List.length new <= 2)%nat /\
    Forall (fun p => body (snd p) = rectangles (ui (worldAfter savedOnce))) new.
Proof.
  apply (requests_carry_the_current_list (worldAfter savedOnce)
           (worldAfter savedTwice) 3300 Idle).
  - apply (run_reachable savedOnce (mount 0)); [apply reachable_mount|].
    vm_compute. reflexivity.
  - vm_compute. reflexivity.
Defined.

Lemma loading_stays_off (w w' : World) (now : Z) (e : event) :
  step w now e = Some w' -> loading (ui w) = false -> loading (ui w') = false.
Proof.
  intros Hstep Hoff. pose proof (step_ui_cases _ _ _ _ Hstep) as Hc.
  destruct e;
    try (destruct (handle_ui_frame _ _ _ _ (proj2 Hc)) as (-> & _); exact Hoff).
  - destruct Hc as [Hon _]. congruence.
  - destruct Hc as (_ & _ & ->). exact Hoff.
  - destruct Hc as (req & _ & ->).
    destruct (saveSettled_frame req outcome (ui w)) as (-> & _). exact Hoff.
  - rewrite Hc. exact Hoff.
Qed.

Lemma loading_state (w : World) :
  reachable w -> loading (ui w) = true ->
  ui w = initial /\ timers w = [] /\ sent w = [] /\ inFlight w = [].
Proof.
  induction 1 as [t0|w now e w' Hreach IH Hstep]; intros Hon.
  - repeat split.
  - destruct (loading (ui w)) eqn:El.
    + destruct (IH eq_refl) as (Hui & Ht & Hs & Hf).
      pose proof (step_ui_cases _ _ _ _ Hstep) as Hc.
      destruct (advance_spec now w) as (Hu1 & _ & Ht1 & _ & _ & Hf1 & Hs1).
      rewrite Ht in Ht1, Hf1, Hs1. simpl in Ht1, Hf1, Hs1.
      rewrite Hf in Hf1. rewrite Hs in Hs1. simpl in Hf1, Hs1.
      destruct e; try (pose proof (proj1 Hc); congruence).
      * destruct Hc as [_ Hc]. rewrite Hc in Hon.
        destruct (fetchSettled_frame outcome (ui w)) as (Hoff & _). congruence.
      * destruct Hc as (req & Hin & _). rewrite Hf1 in Hin. destruct Hin.
      * unfold step in Hstep. destruct (now <? clock w)%Z; [discriminate|].
        injection Hstep as <-. rewrite Hu1, Ht1, Hs1, Hf1. repeat split.
        exact Hui.
    + rewrite (loading_stays_off _ _ _ _ Hstep El) in Hon. discriminate Hon.
Qed.

(** X12. Until [fetchAnnotations] has settled the component is inert: its
    state is the initial one, no timeout is pending and nothing was sent, and
    the only events it takes are the passing of time and the answer to the
    fetch.  Once [loading] is false it stays false. *)
Theorem nothing_happens_before_the_load (w : World) :
  reachable w ->
  (loading (ui w) = true ->
   ui w = initial /\ timers w = [] /\ sent w = [] /\
   forall now e w', step w now e = Some w' ->
                    e = Idle \/ exists outcome, e = FetchSettled outcome) /\
  (loading (ui w) = false ->
   forall now e w', step w now e = Some w' -> loading (ui w') = false).
Proof.
  intros Hreach. split.
  - intros Hon. destruct (loading_state w Hreach Hon) as (Hui & Ht & Hs & Hf).
    repeat split; try assumption.
    intros now e w' Hstep. pose proof (step_ui_cases _ _ _ _ Hstep) as Hc.
    destruct (advance_spec now w) as (_ & _ & _ & _ & _ & Hf1 & _).
    rewrite Ht, Hf in Hf1. simpl in Hf1.
    destruct e; try (pose proof (proj1 Hc); congruence).
    + right. eexists. reflexivity.
    + destruct Hc as (req & Hin & _). rewrite Hf1 in Hin. destruct Hin.
    + left. reflexivity.
  - intros Hoff now e w' Hstep. exact (loading_stays_off _ _ _ _ Hstep Hoff).
Qed.

Lemma nothing_happens_before_the_load_witness :
  ui (worldAfter [(5%Z, Idle)]) = initial /\
  loading (ui (worldAfter savedTwice)) = false.
Proof.
  split.
  - apply (nothing_happens_before_the_load (worldAfter [(5%Z, Idle)])).
    + apply (run_reachable [(5%Z, Idle)] (mount 0)); [apply reachable_mount|].
      vm_compute. reflexivity.
    + reflexivity.
  - destruct (nothing_happens_before_the_load (worldAfter savedOnce)) as [_ H].
    + apply (run_reachable savedOnce (mount 0)); [apply reachable_mount|].
      vm_compute. reflexivity.
    + apply (H eq_refl 3300%Z Idle). vm_compute. reflexivity.
Defined.

(** ** The annotation id and the message *)

Lemma annotationId_kept (w w' : World) (now : Z) (e : event) (a : string) :
  step w now e = Some w' -> annotationId (ui w) = Some a ->
  exists a', annotationId (ui w') = Some a'.
Proof.
  intros Hstep Ha. pose proof (step_ui_cases _ _ _ _ Hstep) as Hc.
  destruct e;
    try (destruct (handle_ui_frame _ _ _ _ (proj2 Hc)) as (_ & -> & _);
         exists a; exact Ha).
  - destruct Hc as [_ ->]. unfold fetchSettled.
    destruct outcome as [data|]; [destruct (rev data)|]; simpl;
      eexists; first [exact Ha | reflexivity].
  - destruct Hc as (_ & _ & ->). exists a. exact Ha.
  - destruct Hc as (req & _ & ->). unfold saveSettled.
    destruct outcome; [destruct req|]; simpl;
      eexists; first [exact Ha | reflexivity].
  - rewrite Hc. exists a. exact Ha.
Qed.

Lemma saveRequest_without_id (c : closure) :
  seenAnnotationId c = None -> exists data, saveRequest c = POST data.
Proof.
  intros H. unfold saveRequest. rewrite H. eexists. reflexivity.
Qed.

Lemma creations_only (w : World) :
  reachable w -> annotationId (ui w) = None ->
  Forall (fun t => seenAnnotationId (callback t) = None) (timers w) /\
  Forall (fun p => exists data, snd p = POST data) (sent w).
Proof.
  induction 1 as [t0|w now e w' Hreach IH Hstep]; intros Hnone.
  - split; constructor.
  - assert (Hprev : annotationId (ui w) = None).
    { destruct (annotationId (ui w)) as [a|] eqn:Ea; [|reflexivity].
      destruct (annotationId_kept _ _ _ _ a Hstep Ea) as [a' Ha'].
      congruence. }
    destruct (IH Hprev) as [Htim Hsent].
    pose proof (reachable_invariant w Hreach) as Hinv.
    destruct (step_spec _ _ _ _ Hinv Hstep) as (_ & _ & Hs & _ & Ht).
    split.
    + rewrite Ht. destruct (depsChanged (ui w) (ui w')).
      * unfold scheduled.
        destruct (autoSave (ui w') && _); constructor; [|constructor].
        exact Hnone.
      * rewrite Forall_forall in *. intros t Hin.
        apply filter_In in Hin. apply Htim. apply Hin.
    + rewrite Hs. apply Forall_app. split; [exact Hsent|].
      apply Forall_app. split.
      * unfold fired. rewrite Forall_forall in *. intros p Hin.
        apply in_map_iff in Hin. destruct Hin as (t & <- & Hin).
        apply filter_In in Hin. simpl.
        apply saveRequest_without_id. apply Htim. apply Hin.
      * destruct e; simpl; constructor; [|constructor]. simpl.
        apply saveRequest_without_id. exact Hprev.
Qed.

(** X13. The annotation id is set only by answers of the service: no handler
    of the interface changes it, and once the set has an id no event takes
    it away (a later answer may replace it).  As long as the set has no id,
    every request that was sent is a creation ([POST]), never an update. *)
Theorem annotationId_comes_from_answers :
  (forall now e st st',
     handle_ui now e st = Some st' -> annotationId st' = annotationId st) /\
  (forall w now e w' a,
     step w now e = Some w' -> annotationId (ui w) = Some a ->
     exists a', annotationId (ui w') = Some a') /\
  (forall w,
     reachable w -> annotationId (ui w) = None ->
     Forall (fun p => exists data, snd p = POST data) (sent w)).
Proof.
  split; [|split].
  - intros now e st st' H. apply (handle_ui_frame _ _ _ _ H).
  - intros w now e w' a Hstep Ha. exact (annotationId_kept _ _ _ _ a Hstep Ha).
  - intros w Hreach Hnone. apply (creations_only w Hreach Hnone).
Qed.

Lemma annotationId_comes_from_answers_witness :
  (exists a', annotationId (ui (worldAfter savedTwice)) = Some a') /\
  Forall (fun p => exists data, snd p = POST data)
         (sent (worldAfter (firstEdit ++ [(3300%Z, Idle)]))).
Proof.
  destruct annotationId_comes_from_answers as (_ & Hkept & Hposts). split.
  - apply (Hkept (worldAfter savedOnce) 3300%Z Idle (worldAfter savedTwice) "A");
      vm_compute; reflexivity.
  - apply Hposts.
    + apply (run_reachable (firstEdit ++ [(3300%Z, Idle)]) (mount 0));
        [apply reachable_mount|].
      vm_compute. reflexivity.
    + vm_compute. reflexivity.
Defined.

Lemma handle_ui_error (now : Z) (e : event) (st st' : Canvas) :
  handle_ui now e st = Some st' ->
  error st' = error st \/
  (e = FileChosen (Some SyntaxError) /\ error st' = "Invalid file format").
Proof.
  intros H. destruct e; simpl in H; try discriminate H.
  - injection H as <-. left. reflexivity.
  - injection H as <-. left. unfold handleMouseDown.
    destruct (negb (isDrawing st) || negb onStage); reflexivity.
  - injection H as <-. left. unfold handleMouseMove.
    destruct (negb (isDrawing st)), (startPoint st), (currentRect st);
      reflexivity.
  - injection H as <-. left. unfold handleMouseUp.
    destruct (currentRect st) as [cur|]; [destruct (bigEnough cur)|];
      reflexivity.
  - destruct (idOf i st); simpl in H; [|discriminate H].
    injection H as <-. left. reflexivity.
  - destruct (idOf i st); simpl in H; [|discriminate H].
    unfold handleDragEnd in H.
    destruct (mapM _ (rectangles st)); simpl in H; [|discriminate H].
    injection H as <-. left. reflexivity.
  - destruct (idOf i st); simpl in H; [|discriminate H].
    unfold handleTransformEnd in H.
    destruct (mapM _ (rectangles st)); simpl in H; [|discriminate H].
    injection H as <-. left. reflexivity.
  - destruct (truthy (selectedId st)) eqn:Et; [|discriminate H].
    unfold deleteSelected in H. rewrite Et in H.
    destruct (filterM _ (rectangles st)); simpl in H; [|discriminate H].
    injection H as <-. left. reflexivity.
  - destruct (List.length (rectangles st) =? 0)%nat; [discriminate H|].
    injection H as <-. left. reflexivity.
  - destruct (List.length (rectangles st) =? 0)%nat; [discriminate H|].
    injection H as <-. left. reflexivity.
  - injection H as <-. unfold loadFromFile, parsedAlready, onload.
    destruct file as [[|[]]|]; try (left; reflexivity).
    right. split; reflexivity.
  - injection H as <-. left. reflexivity.
Qed.

(** X14. The message shown to the user changes in four ways only: an
    imported file that does not parse sets it to "Invalid file format", a
    failed fetch to "Failed to load annotations", a failed save to "Failed to
    save annotations", and a successful save clears it.  Every other event,
    a successful import among them, leaves the message as it was. *)
Theorem error_message_changes_four_ways
    (w w' : World) (now : Z) (e : event) :
  step w now e = Some w' ->
  error (ui w') = error (ui w) \/
  (e = FileChosen (Some SyntaxError) /\
   error (ui w') = "Invalid file format") \/
  (e = FetchSettled None /\ error (ui w') = "Failed to load annotations") \/
  (exists k, e = SaveSettled k None /\
             error (ui w') = "Failed to save annotations") \/
  (exists k id, e = SaveSettled k (Some id) /\ error (ui w') = "").
Proof.
  intros Hstep. pose proof (step_ui_cases _ _ _ _ Hstep) as Hc.
  destruct e;
    try (destruct (handle_ui_error _ _ _ _ (proj2 Hc)) as [He|He];
         [left; exact He | right; left; exact He]).
  - destruct Hc as [_ ->]. unfold fetchSettled.
    destruct outcome as [data|].
    + left. destruct (rev data); reflexivity.
    + right. right. left. split; reflexivity.
  - destruct Hc as (_ & _ & ->). left. reflexivity.
  - destruct Hc as (req & _ & ->). right. right. right.
    destruct outcome as [id|].
    + right. exists k, id. split; [reflexivity|]. destruct req; reflexivity.
    + left. exists k. split; reflexivity.
  - rewrite Hc. left. reflexivity.
Qed.

Lemma error_message_changes_four_ways_witness :
  error (ui (worldAfter savedTwice)) = error (ui (worldAfter savedOnce)) \/
  (Idle = FileChosen (Some SyntaxError) /\
   error (ui (worldAfter savedTwice)) = "Invalid file format") \/
  (Idle = FetchSettled None /\
   error (ui (worldAfter savedTwice)) = "Failed to load annotations") \/
  (exists k, Idle = SaveSettled k None /\
             error (ui (worldAfter savedTwice)) =
               "Failed to save annotations") \/
  (exists k id, Idle = SaveSettled k (Some id) /\
                error (ui (worldAfter savedTwice)) = "").
Proof.
  apply (error_message_changes_four_ways (worldAfter savedOnce)
           (worldAfter savedTwice) 3300 Idle).
  vm_compute. reflexivity.
Defined.

(** ** The login form *)

(** X15. What the login form shows after a submission, from [handleSubmit]
    to the render that follows its settling.  The mode and the credentials
    typed are not touched and [loading] ends false.  When the request is
    refused, [onLogin] is not called; the error box shows "An error occurred"
    when the service sent no message or a falsy one, and the message of the
    service when that is a non-empty string; when the message is an object,
    the render throws and the form is gone.  When the request is granted,
    [onLogin] gets the token and the user and no error box is shown,
    whatever was shown before. *)
Theorem login_submission_settles (st : Login.t) (a : Login.answer) :
  Login.loading (fst (Login.submission a st)) = false /\
  Login.isLogin (fst (Login.submission a st)) = Login.isLogin st /\
  Login.username (fst (Login.submission a st)) = Login.username st /\
  Login.password (fst (Login.submission a st)) = Login.password st /\
  (forall message,
     a = Login.Refused message ->
     snd (Login.submission a st) = None /\
     (truthy message = false ->
      Login.errorBox (fst (Login.submission a st)) =
        Some (Some (JStr "An error occurred"))) /\
     (forall s, message = Def (JStr s) -> s <> ""%string ->
        Login.errorBox (fst (Login.submission a st)) = Some (Some (JStr s))) /\
     (forall props, message = Def (JObj props) ->
        Login.errorBox (fst (Login.submission a st)) = None /\
        forall f, Login.pending f <> None ->
                  Login.step f (Login.Answer a) = None)) /\
  (forall token user,
     a = Login.Granted token user ->
     Login.errorBox (fst (Login.submission a st)) = Some None /\
     snd (Login.submission a st) = Some (token, user)).
Proof.
  destruct a as [token user|message]; cbn;
    do 4 (split; [reflexivity|]); split.
  - intros m H. discriminate H.
  - intros t u H. injection H as <- <-. split; reflexivity.
  - intros m H. injection H as <-. split; [reflexivity|]. split; [|split].
    + intros E. unfold Login.errorBox. cbn. rewrite E. reflexivity.
    + intros s -> Hs. unfold Login.errorBox. cbn.
      destruct (s =? "")%string eqn:E.
      * apply String.eqb_eq in E. contradiction.
      * cbn. rewrite E. reflexivity.
    + intros props ->. split; [reflexivity|].
      intros f Hp. unfold Login.step. simpl.
      destruct (Login.pending f); [reflexivity|contradiction Hp; reflexivity].
  - intros t u H. discriminate H.
Qed.

Lemma login_submission_settles_witness :
  Login.errorBox
    (fst (Login.submission (Login.Refused Undefined) Login.initial)) =
    Some (Some (JStr "An error occurred"))
  /\ Login.errorBox
       (fst (Login.submission (Login.Refused (Def (JStr "Invalid credentials")))
               Login.initial)) =
     Some (Some (JStr "Invalid credentials"))
  /\ Login.errorBox
       (fst (Login.submission (Login.Refused (Def (JObj []))) Login.initial)) =
     None.
Proof.
  split; [|split].
  - destruct (login_submission_settles Login.initial (Login.Refused Undefined))
      as (_ & _ & _ & _ & Hrefused & _).
    apply (proj1 (proj2 (Hrefused Undefined eq_refl))). reflexivity.
  - destruct (login_submission_settles Login.initial
                (Login.Refused (Def (JStr "Invalid credentials"))))
      as (_ & _ & _ & _ & Hrefused & _).
    apply (proj1 (proj2 (proj2 (Hrefused _ eq_refl))) "Invalid credentials").
    + reflexivity.
    + discriminate.
  - destruct (login_submission_settles Login.initial
                (Login.Refused (Def (JObj []))))
      as (_ & _ & _ & _ & Hrefused & _).
    apply (proj1 (proj2 (proj2 (proj2 (Hrefused _ eq_refl))) [] eq_refl)).
Defined.

Lemma login_dispatch_ok (f f' : Login.form) (e : Login.event) :
  loginFormOk f -> Login.dispatch f e = Some f' ->
  loginFormOk f' /\
  List.length (Login.calls f') =
  (List.length (Login.calls f) + Login.granted [e])%nat.
Proof.
  intros [Hload Hreq] Hstep. destruct f as [st pend calls]. simpl in *.
  destruct e as [s|s| | |a]; simpl in Hstep.
  - destruct (Login.loading st) eqn:El; [discriminate Hstep|].
    injection Hstep as <-. unfold loginFormOk. simpl.
    assert (Hp : pend = None).
    { destruct pend; [|reflexivity].
      assert (H : false = true) by (apply Hload; discriminate).
      discriminate H. }
    subst pend. rewrite El. repeat split; try tauto; try discriminate.
    unfold Login.granted. simpl. lia.
  - destruct (Login.loading st) eqn:El; [discriminate Hstep|].
    injection Hstep as <-. unfold loginFormOk. simpl.
    assert (Hp : pend = None).
    { destruct pend; [|reflexivity].
      assert (H : false = true) by (apply Hload; discriminate).
      discriminate H. }
    subst pend. rewrite El. repeat split; try tauto; try discriminate.
    unfold Login.granted. simpl. lia.
  - destruct (Login.loading st) eqn:El; [discriminate Hstep|]. simpl in Hstep.
    destruct (Login.username st =? "")%string eqn:Eu; [discriminate Hstep|].
    destruct (Login.password st =? "")%string eqn:Ep; [discriminate Hstep|].
    simpl in Hstep. injection Hstep as <-. unfold loginFormOk. simpl.
    apply String.eqb_neq in Eu, Ep.
    split; [split; [split; [intros _; discriminate|reflexivity]|]
           |unfold Login.granted; simpl; lia].
    intros r H. injection H as <-. split; [reflexivity|split; assumption].
  - destruct (Login.loading st) eqn:El; [discriminate Hstep|].
    injection Hstep as <-. unfold loginFormOk. simpl.
    assert (Hp : pend = None).
    { destruct pend; [|reflexivity].
      assert (H : false = true) by (apply Hload; discriminate).
      discriminate H. }
    subst pend. rewrite El. repeat split; try tauto; try discriminate.
    unfold Login.granted. simpl. lia.
  - destruct pend as [req|]; [|discriminate Hstep].
    injection Hstep as <-. unfold loginFormOk. simpl.
    destruct a as [token user|message]; simpl; rewrite ?length_app; simpl;
      repeat split; try tauto; try discriminate;
      try (unfold Login.granted; simpl; lia).
Qed.

Lemma login_step_ok (f f' : Login.form) (e : Login.event) :
  loginFormOk f -> Login.step f e = Some f' ->
  loginFormOk f' /\
  List.length (Login.calls f') =
  (List.length (Login.calls f) + Login.granted [e])%nat.
Proof.
  intros Hok Hstep. unfold Login.step in Hstep.
  destruct (Login.dispatch f e) as [f1|] eqn:Hd; [|discriminate Hstep].
  simpl in Hstep.
  destruct (Login.errorBox (Login.state f1)); [|discriminate Hstep].
  injection Hstep as <-. exact (login_dispatch_ok _ _ _ Hok Hd).
Qed.

(** X16. In every state the login form reaches from its mounting: it is
    loading exactly while a request is under way, so there is never more
    than one; that request goes to the login or the register address
    according to the mode shown, with the user name and the password shown,
    neither of them empty; and [onLogin] was called once for each granted
    answer, never otherwise. *)
Theorem login_form_has_one_request_under_way
    (events : list Login.event) (f : Login.form) :
  Login.run Login.mounted events = Some f ->
  (Login.loading (Login.state f) = true <-> Login.pending f <> None) /\
  (forall req,
     Login.pending f = Some req ->
     Login.url req =
       ("https://vecrossbackend.onrender.com" ++
        (if Login.isLogin (Login.state f) then "/api/auth/login"
         else "/api/auth/register"))%string /\
     Login.sentUsername req = Login.username (Login.state f) /\
     Login.sentPassword req = Login.password (Login.state f) /\
     Login.sentUsername req <> ""%string /\
     Login.sentPassword req <> ""%string) /\
  List.length (Login.calls f) = Login.granted events.
Proof.
  assert (Hgen : forall evs f0,
            loginFormOk f0 -> Login.run f0 evs = Some f ->
            loginFormOk f /\
            List.length (Login.calls f) =
            (List.length (Login.calls f0) + Login.granted evs)%nat).
  { induction evs as [|e rest IH]; intros f0 Hok Hrun; simpl in Hrun.
    - injection Hrun as <-. split; [exact Hok|].
      unfold Login.granted. simpl. lia.
    - destruct (Login.step f0 e) as [f1|] eqn:Es; [|discriminate Hrun].
      simpl in Hrun. destruct (login_step_ok _ _ _ Hok Es) as [Hok1 Hc1].
      destruct (IH f1 Hok1 Hrun) as [Hokf Hcf]. split; [exact Hokf|].
      rewrite Hcf, Hc1. unfold Login.granted. simpl.
      destruct e as [| | | |[]]; simpl; lia. }
  intros Hrun.
  destruct (Hgen events Login.mounted) as [[Hload Hreq] Hcalls];
    [|exact Hrun|].
  { split; simpl; [split; [discriminate|intros H; contradiction H; reflexivity]|].
    intros req H. discriminate H. }
  split; [exact Hload|]. split; [|exact Hcalls].
  intros req Hp. destruct (Hreq req Hp) as (-> & Hu & Hpw).
  repeat split; assumption.
Qed.

Lemma login_form_has_one_request_under_way_witness :
  List.length
    (Login.calls
       {| Login.state :=
            {| Login.isLogin := true; Login.username := "ann";
               Login.password := "pw"; Login.error := Def (JStr "");
               Login.loading := false |};
          Login.pending := None;
          Login.calls := [(Def (JStr "t"), Def JNull)] |}) = 1%nat.
Proof.
  apply (login_form_has_one_request_under_way
           [ Login.TypeUsername "ann"; Login.TypePassword "pw"; Login.Submit;
             Login.Answer (Login.Granted (Def (JStr "t")) (Def JNull)) ]).
  reflexivity.
Defined.

(** ** Identifiers in a session *)

Lemma freshId_inj (a b : Z) :
  (0 <= a)%Z -> (0 <= b)%Z -> freshId a = freshId b -> a = b.
Proof.
  intros Ha Hb H. unfold freshId in H. simpl in H. injection H as H.
  exact (toString10_inj a b Ha Hb H).
Qed.

Lemma mapM_ids (f : value -> option value) (l l' : list value) :
  (forall a b, f a = Some b -> getProp "id" b = getProp "id" a) ->
  mapM f l = Some l' -> idsOf l' = idsOf l.
Proof.
  intros Hid. revert l'. induction l as [|a0 l IH]; intros l' H; simpl in H.
  - injection H as <-. reflexivity.
  - destruct (f a0) as [b0|] eqn:Ef; [|discriminate]. simpl in H.
    destruct (mapM f l) as [bs|] eqn:Em; [|discriminate]. simpl in H.
    injection H as <-. unfold idsOf in *. simpl.
    rewrite (Hid _ _ Ef), (IH bs eq_refl). reflexivity.
Qed.

Lemma filterM_is_filter {A : Type} (f : A -> option bool) (l l' : list A) :
  filterM f l = Some l' ->
  l' = filter (fun a => match f a with Some true => true | _ => false end) l.
Proof.
  revert l'. induction l as [|a0 l IH]; intros l' H; simpl in H.
  - injection H as <-. reflexivity.
  - destruct (f a0) as [keep|] eqn:Ef; [|discriminate]. simpl in H.
    destruct (filterM f l) as [kept|] eqn:Em; [|discriminate]. simpl in H.
    injection H as <-. simpl. rewrite Ef, <- (IH kept eq_refl).
    destruct keep; reflexivity.
Qed.

Lemma NoDup_map_filter {A B : Type} (k : A -> B) (g : A -> bool) (l : list A) :
  NoDup (map k l) -> NoDup (map k (filter g l)).
Proof.
  induction l as [|a l IH]; intros H; simpl; [constructor|].
  simpl in H. apply NoDup_cons_iff in H. destruct H as [Hnin Hnd].
  destruct (g a); simpl; [|exact (IH Hnd)].
  constructor; [|exact (IH Hnd)].
  intros Hin. apply Hnin. apply in_map_iff in Hin.
  destruct Hin as (x & Hx & Hin). apply filter_In in Hin.
  apply in_map_iff. exists x. split; [exact Hx|apply Hin].
Qed.

Lemma drawnBy_mono (last last' : Z) (rect : value) :
  (last <= last')%Z -> drawnBy last rect -> drawnBy last' rect.
Proof.
  intros Hle (t & Ht & Hid). exists t. split; [lia|exact Hid].
Qed.

Lemma uniqueIds_mono (last last' : Z) (st : Canvas) :
  (last <= last')%Z -> uniqueIds last st -> uniqueIds last' st.
Proof.
  intros Hle (Hl & Hnd & Hall & Hcur). split; [lia|]. split; [exact Hnd|].
  split.
  - eapply Forall_impl; [|exact Hall]. intros rect. apply drawnBy_mono, Hle.
  - intros cur Hc. destruct (Hcur cur Hc) as (t & Ht & Hid & Hnin).
    exists t. split; [lia|]. split; assumption.
Qed.

(** A state with the same rectangles and provisional rectangle. *)
Lemma uniqueIds_same (last : Z) (st st' : Canvas) :
  rectangles st' = rectangles st -> currentRect st' = currentRect st ->
  uniqueIds last st -> uniqueIds last st'.
Proof.
  intros Hr Hc. unfold uniqueIds. rewrite Hr, Hc. tauto.
Qed.

(** A state whose rectangles were mapped without touching any id. *)
Lemma uniqueIds_mapped (last : Z) (f : value -> option value) (st : Canvas)
    (updated : list value) :
  (forall a b, f a = Some b -> getProp "id" b = getProp "id" a) ->
  mapM f (rectangles st) = Some updated ->
  uniqueIds last st -> uniqueIds last (setRectangles updated st).
Proof.
  intros Hid Hmap (Hl & Hnd & Hall & Hcur).
  pose proof (mapM_ids f _ _ Hid Hmap) as Hids.
  split; [exact Hl|]. simpl. rewrite Hids. split; [exact Hnd|]. split.
  - apply Forall_forall. intros b Hb.
    destruct (mapM_In_inv _ _ _ Hmap b Hb) as (a & Ha & Hf).
    rewrite Forall_forall in Hall. destruct (Hall a Ha) as (t & Ht & Hta).
    exists t. split; [exact Ht|]. rewrite (Hid _ _ Hf). exact Hta.
  - exact Hcur.
Qed.

Lemma handle_ui_uniqueIds (last now : Z) (e : event) (st st' : Canvas) :
  handle_ui now e st = Some st' ->
  uniqueIds last st ->
  match e with
  | MouseDown _ _ _ => (last < now)%Z -> uniqueIds now st'
  | _ => bringsNothingIn e = true -> uniqueIds last st'
  end.
Proof.
  intros H Huniq. destruct e; simpl in H; try discriminate H.
  - injection H as <-. intros _. revert Huniq. apply uniqueIds_same; reflexivity.
  - injection H as <-. intros Hlt. unfold handleMouseDown.
    destruct (negb (isDrawing st) || negb onStage).
    + apply (uniqueIds_mono last); [lia|exact Huniq].
    + destruct Huniq as (Hl & Hnd & Hall & _).
      split; [lia|]. simpl. split; [exact Hnd|]. split.
      * eapply Forall_impl; [|exact Hall]. intros rect.
        apply drawnBy_mono. lia.
      * intros cur Hc. injection Hc as <-. simpl. exists now.
        split; [lia|]. split; [reflexivity|].
        intros Hin. unfold idsOf in Hin. apply in_map_iff in Hin.
        destruct Hin as (rect & Hid & Hin).
        rewrite Forall_forall in Hall. destruct (Hall rect Hin) as (t & Ht & Hid').
        rewrite Hid' in Hid. injection Hid as Hid.
        apply toString10_inj in Hid; lia.
  - injection H as <-. intros _. unfold handleMouseMove.
    destruct (negb (isDrawing st)); [exact Huniq|].
    destruct (startPoint st) as [start|]; [|exact Huniq].
    destruct (currentRect st) as [cur|] eqn:Ec; [|exact Huniq].
    destruct Huniq as (Hl & Hnd & Hall & Hcur).
    split; [exact Hl|]. split; [exact Hnd|]. split; [exact Hall|].
    simpl. intros c Hc. injection Hc as <-. simpl.
    rewrite Ec in Hcur. exact (Hcur cur eq_refl).
  - injection H as <-. intros _. destruct Huniq as (Hl & Hnd & Hall & Hcur).
    split; [exact Hl|]. rewrite handleMouseUp_rectangles.
    assert (Hnone : forall c, currentRect (handleMouseUp st) = Some c ->
              exists t, (0 <= t <= last)%Z /\ Rect.id c = freshId t /\
                ~ In (Some (Def (JStr (freshId t))))
                     (idsOf match currentRect st with
                            | Some cur =>
                                if bigEnough cur
                                then rectangles st ++ [objOfRect (finalRect cur)]
                                else rectangles st
                            | None => rectangles st
                            end))
      by (intros c Hc; discriminate Hc).
    destruct (currentRect st) as [cur|]; [|repeat split; assumption].
    destruct (bigEnough cur); [|repeat split; assumption].
    destruct (Hcur cur eq_refl) as (t & Ht & Hid & Hnin).
    split; [|split; [|exact Hnone]].
    + unfold idsOf. rewrite map_app. simpl. rewrite Hid.
      apply NoDup_app; [exact Hnd|repeat constructor; intros []|].
      intros a Ha [<-|[]]. exact (Hnin Ha).
    + apply Forall_app. split; [exact Hall|]. constructor; [|constructor].
      exists t. split; [exact Ht|]. simpl. rewrite Hid. reflexivity.
  - destruct (idOf i st); simpl in H; [|discriminate H]. injection H as <-.
    intros _. revert Huniq. apply uniqueIds_same; reflexivity.
  - destruct (idOf i st) as [id|]; simpl in H; [|discriminate H].
    unfold handleDragEnd in H.
    destruct (mapM _ (rectangles st)) as [updated|] eqn:Em; simpl in H;
      [|discriminate H].
    injection H as <-. intros _.
    eapply uniqueIds_mapped; [|exact Em|exact Huniq].
    intros a b. apply movedRect_id.
  - destruct (idOf i st) as [id|]; simpl in H; [|discriminate H].
    unfold handleTransformEnd in H.
    destruct (mapM _ (rectangles st)) as [updated|] eqn:Em; simpl in H;
      [|discriminate H].
    injection H as <-. intros _. simpl.
    eapply uniqueIds_mapped; [|exact Em|exact Huniq].
    intros a b. apply resizedRect_id.
  - destruct (truthy (selectedId st)) eqn:Et; [|discriminate H].
    unfold deleteSelected in H. rewrite Et in H.
    destruct (filterM _ (rectangles st)) as [kept|] eqn:Ef; simpl in H;
      [|discriminate H].
    injection H as <-. intros _. destruct Huniq as (Hl & Hnd & Hall & Hcur).
    pose proof (filterM_is_filter _ _ _ Ef) as Hk.
    split; [exact Hl|]. simpl. split; [|split].
    + rewrite Hk. apply NoDup_map_filter. exact Hnd.
    + apply Forall_forall. intros rect Hin. rewrite Forall_forall in Hall.
      apply Hall. exact (proj1 (filterM_incl _ _ _ Ef rect Hin)).
    + intros cur Hc. destruct (Hcur cur Hc) as (t & Ht & Hid & Hnin).
      exists t. split; [exact Ht|]. split; [exact Hid|].
      intros Hin. apply Hnin. unfold idsOf in *. apply in_map_iff in Hin.
      destruct Hin as (rect & Hr & Hin). apply in_map_iff.
      exists rect. split; [exact Hr|].
      exact (proj1 (filterM_incl _ _ _ Ef rect Hin)).
  - destruct (List.length (rectangles st) =? 0)%nat; [discriminate H|].
    injection H as <-. intros _. destruct Huniq as (Hl & _ & _ & Hcur).
    split; [exact Hl|]. simpl. split; [constructor|]. split; [constructor|].
    intros cur Hc. destruct (Hcur cur Hc) as (t & Ht & Hid & _).
    exists t. split; [exact Ht|]. split; [exact Hid|]. intros [].
  - destruct (List.length (rectangles st) =? 0)%nat; [discriminate H|].
    injection H as <-. intros _. exact Huniq.
  - injection H as <-. unfold loadFromFile, parsedAlready, onload.
    destruct file as [[|[]]|]; simpl; intros Hb; try discriminate Hb;
      try exact Huniq.
  - injection H as <-. intros _. revert Huniq.
    apply uniqueIds_same; reflexivity.
Qed.

Lemma step_uniqueIds (last now : Z) (e : event) (w w' : World) :
  step w now e = Some w' ->
  uniqueIds last (ui w) ->
  match e with
  | MouseDown _ _ _ => (last < now)%Z -> uniqueIds now (ui w')
  | _ => bringsNothingIn e = true -> uniqueIds last (ui w')
  end.
Proof.
  intros Hstep Huniq. pose proof (step_ui_cases _ _ _ _ Hstep) as Hc.
  destruct e;
    try exact (handle_ui_uniqueIds last now _ _ _ (proj2 Hc) Huniq).
  - destruct Hc as [_ ->]. intros Hb. revert Huniq.
    destruct outcome as [[|a data]|]; try discriminate Hb;
      apply uniqueIds_same; reflexivity.
  - destruct Hc as (_ & _ & ->). intros _. exact Huniq.
  - destruct Hc as (req & _ & ->). intros _. revert Huniq.
    destruct (saveSettled_frame req outcome (ui w))
      as (_ & _ & _ & _ & _ & Hcur & _ & Hr).
    apply uniqueIds_same; assumption.
  - rewrite Hc. intros _. exact Huniq.
Qed.

(** X17. Ids stay unique as long as the clock tells pointer-downs apart.
    From a state whose stored rectangles were drawn (by pointer-downs up to
    the millisecond [last]) and have pairwise different ids, a session that
    brings no rectangles in from outside and in which every pointer-down
    comes at a later millisecond than the one before leaves a sequence whose
    ids are pairwise different, whatever is drawn, moved, resized or
    deleted. *)
Theorem ids_stay_unique
    (last : Z) (events : list (Z * event)) (w0 w : World) :
  uniqueIds last (ui w0) ->
  drawnInTurn last events = true ->
  run w0 events = Some w ->
  NoDup (idsOf (rectangles (ui w))).
Proof.
  revert last w0. induction events as [|[now e] rest IH];
    intros last w0 Huniq Hturn Hrun; simpl in Hrun.
  - injection Hrun as <-. apply Huniq.
  - destruct (step w0 now e) as [w1|] eqn:Es; [|discriminate Hrun].
    simpl in Hrun. pose proof (step_uniqueIds last now e w0 w1 Es Huniq) as H1.
    destruct e; cbn [drawnInTurn] in Hturn; apply andb_true_iff in Hturn;
      destruct Hturn as [He Hrest];
      try exact (IH last w1 (H1 He) Hrest Hrun).
    apply Z.ltb_lt in He. exact (IH now w1 (H1 He) Hrest Hrun).
Qed.

Lemma ids_stay_unique_witness :
  NoDup (idsOf (rectangles (ui (worldAfter thenQuiet)))).
Proof.
  apply (ids_stay_unique (-1) thenQuiet (mount 0)).
  - split; [lia|]. split; [constructor|]. split; [constructor|].
    intros cur Hc. discriminate Hc.
  - vm_compute. reflexivity.
  - vm_compute. reflexivity.
Defined.

(** ** Events that do not disturb the auto-save *)

Lemma quiet_event (w w' : World) (now : Z) (e : event) :
  leavesListAlone e = true -> step w now e = Some w' ->
  depsChanged (ui w) (ui w') = false.
Proof.
  intros Hq Hstep. pose proof (step_ui_cases _ _ _ _ Hstep) as Hc.
  assert (Hsame : forall st st',
            generation st' = generation st -> autoSave st' = autoSave st ->
            depsChanged st st' = false).
  { intros st st' Hg Ha. unfold depsChanged.
    rewrite Hg, Ha, Nat.eqb_refl, eqb_reflx. reflexivity. }
  destruct e; try discriminate Hq; simpl in Hc.
  - destruct Hc as [_ Hc]. injection Hc as <-. apply Hsame; reflexivity.
  - destruct Hc as [_ Hc]. injection Hc as <-.
    destruct (handleMouseDown_frame onStage pos now rnd (ui w))
      as (_ & Hg & _ & _ & _ & Ha).
    apply Hsame; assumption.
  - destruct Hc as [_ Hc]. injection Hc as <-.
    destruct (handleMouseMove_frame pos (ui w)) as (_ & Hg & _ & _ & _ & Ha).
    apply Hsame; assumption.
  - destruct Hc as [_ Hc]. destruct (idOf i (ui w)); [|discriminate Hc].
    simpl in Hc. injection Hc as <-. apply Hsame; reflexivity.
  - destruct Hc as (_ & _ & ->). apply Hsame; reflexivity.
  - destruct Hc as [_ Hc].
    destruct (List.length (rectangles (ui w)) =? 0)%nat; [discriminate Hc|].
    injection Hc as <-. apply Hsame; reflexivity.
  - destruct Hc as (req & _ & ->).
    destruct (saveSettled_frame req outcome (ui w))
      as (_ & _ & Ha & _ & _ & _ & Hg & _).
    apply Hsame; assumption.
  - rewrite Hc. apply Hsame; reflexivity.
Qed.

(** X18. Only edits and the auto-save switch restart the auto-save timeout.
    Toggling drawing mode, pointer-down and pointer moves, selecting a
    rectangle, exporting, saving by hand, the answer to a save and the
    passing of time leave a pending timeout that is not yet due exactly as it
    was, with its due time, and send nothing but the save of the save
    button. *)
Theorem autosave_is_not_postponed_by_other_events
    (w w' : World) (now : Z) (e : event) (t : timeout) :
  reachable w -> leavesListAlone e = true ->
  timers w = [t] -> (now < due t)%Z ->
  step w now e = Some w' ->
  timers w' = [t] /\ sent w' = sent w ++ manualSave now e (ui w).
Proof.
  intros Hreach Hq Ht Hlt Hstep.
  pose proof (reachable_invariant w Hreach) as Hinv.
  destruct (step_spec _ _ _ _ Hinv Hstep) as (_ & _ & Hs & _ & Htm).
  rewrite (quiet_event _ _ _ _ Hq Hstep) in Htm.
  unfold fired in Hs. rewrite Ht in Hs, Htm. simpl in Hs, Htm.
  unfold isDue in Hs, Htm.
  assert (E : (due t <=? now)%Z = false) by (apply Z.leb_gt; exact Hlt).
  rewrite E in Hs, Htm. split; [exact Htm|exact Hs].
Qed.

Lemma autosave_is_not_postponed_by_other_events_witness :
  timers (worldAfter savedOnce) =
  timers (worldAfter (firstEdit ++ [(1700%Z, SaveToDatabase)])).
Proof.
  destruct (autosave_is_not_postponed_by_other_events
              (worldAfter (firstEdit ++ [(1700%Z, SaveToDatabase)]))
              (worldAfter savedOnce) 1900 (SaveSettled 0 (Some "A"))
              {| handle := 0; due := 3200;
                 callback :=
                   render (ui (worldAfter
                                 (firstEdit ++ [(1700%Z, SaveToDatabase)]))) |})
    as [Htimers _].
  - apply (run_reachable (firstEdit ++ [(1700%Z, SaveToDatabase)]) (mount 0));
      [apply reachable_mount|].
    vm_compute. reflexivity.
  - reflexivity.
  - vm_compute. reflexivity.
  - vm_compute. reflexivity.
  - vm_compute. reflexivity.
  - rewrite Htimers. vm_compute. reflexivity.
Defined.
